(** * SALegalChatbot: the chat view controller of [static/js/main.js]

    A shallow embedding of the browser-side controller: JavaScript strings
    are sequences of UTF-16 code units, the regular expressions the code
    builds are parsed from their pattern text and run by a backtracking
    matcher, the page is a record of the DOM parts the code touches, and
    [sendMessage] is split at its [await] into the part that runs at once
    and the part that runs when the request settles. *)

From Stdlib Require Import List ZArith NArith Bool String Ascii Lia.
From Stdlib Require Import DecimalString DecimalNat.
Import ListNotations.

(* ===================================================================== *)
(** ** JavaScript strings *)
(* ===================================================================== *)

Module JsString.

(** A string is a sequence of 16-bit code units; [length], [slice] and the
    regular expressions of the code (no [u] flag) all count code units. *)
Definition jschar := N.
Definition jsstring := list jschar.

Definition ch (a : ascii) : jschar := N_of_ascii a.

(** An ASCII literal of the source. *)
Definition lit (s : string) : jsstring := map ch (list_ascii_of_string s).

(** The double quote, which the templates of the code use around attribute
    values. *)
Definition dq : jsstring := [34%N].

Definition attr (name : string) (v : jsstring) : jsstring :=
  lit name ++ lit "=" ++ dq ++ v ++ dq.

Definition mem (c : jschar) (l : list jschar) : bool := existsb (N.eqb c) l.

(** WhiteSpace and LineTerminator of ECMAScript: what [\s] matches and
    what [trim] strips. *)
Definition is_space (c : jschar) : bool :=
  mem c [9; 10; 11; 12; 13; 32; 160; 5760; 8232; 8233; 8239; 8287; 12288; 65279]%N
  || ((8192 <=? c) && (c <=? 8202))%N.

Definition is_digit (c : jschar) : bool := ((48 <=? c) && (c <=? 57))%N.

Fixpoint dropWhile (p : jschar -> bool) (s : jsstring) : jsstring :=
  match s with
  | c :: s' => if p c then dropWhile p s' else s
  | [] => []
  end.

Fixpoint takeWhile (p : jschar -> bool) (s : jsstring) : jsstring :=
  match s with
  | c :: s' => if p c then c :: takeWhile p s' else []
  | [] => []
  end.

(** [String.prototype.trim] *)
Definition trim (s : jsstring) : jsstring :=
  rev (dropWhile is_space (rev (dropWhile is_space s))).

(** [s.slice(0, n)] *)
Definition slice0 (n : nat) (s : jsstring) : jsstring := firstn n s.

(** Number to string, for the non-negative integers the code prints
    (an array index, and an index plus one). *)
Definition of_nat (n : nat) : jsstring :=
  lit (NilZero.string_of_uint (Nat.to_uint n)).

(** A string is truthy when it is not empty. *)
Definition nonempty (s : jsstring) : bool :=
  match s with [] => false | _ :: _ => true end.

End JsString.
Import JsString.

(* ===================================================================== *)
(** ** Regular expressions *)
(* ===================================================================== *)

Module RegExp.

(** The fragment of the pattern syntax that the code writes: literal
    characters, the escapes [\s], [\d] and escaped syntax characters, a
    character class given by its members, the greedy quantifiers [?], [*]
    and [+] on one of these, and a negative lookahead [(?!...)] over a
    sequence of them. *)
Inductive cset :=
| CChar (c : jschar)
| CSpace
| CDigit
| COneOf (l : list jschar).

Definition cset_mem (a : cset) (c : jschar) : bool :=
  match a with
  | CChar d => N.eqb c d
  | CSpace => is_space c
  | CDigit => is_digit c
  | COneOf l => mem c l
  end.

Inductive item :=
| ISet (a : cset)
| IOpt (a : cset)
| IStar (a : cset)
| IPlus (a : cset).

Inductive node :=
| NItem (i : item)
| NNegLook (body : list item).

Definition regex := list node.

(** *** Pattern text to syntax tree: [new RegExp(text)] *)

Inductive quant := QOpt | QStar | QPlus.

Inductive token :=
| TSet (a : cset)
| TQuant (q : quant)
| TNegLook
| TClose.

(** The syntax characters of the pattern language. *)
Definition syntax_chars : list jschar := lit ".*+?^${}()|[]\".

Definition escape_class (e : jschar) : option cset :=
  if N.eqb e (ch "s") then Some CSpace
  else if N.eqb e (ch "d") then Some CDigit
  else if mem e syntax_chars then Some (CChar e)
  else None.

Fixpoint tokenize (p : jsstring) : option (list token) :=
  match p with
  | [] => Some []
  | c :: p' =>
    if N.eqb c (ch "\") then
      match p' with
      | e :: p'' =>
        match escape_class e, tokenize p'' with
        | Some a, Some ts => Some (TSet a :: ts)
        | _, _ => None
        end
      | [] => None
      end
    else if N.eqb c (ch "(") then
      match p' with
      | q :: b :: p'' =>
        if N.eqb q (ch "?") && N.eqb b (ch "!") then
          option_map (cons TNegLook) (tokenize p'')
        else None
      | _ => None
      end
    else if N.eqb c (ch ")") then option_map (cons TClose) (tokenize p')
    else if N.eqb c (ch "?") then option_map (cons (TQuant QOpt)) (tokenize p')
    else if N.eqb c (ch "*") then option_map (cons (TQuant QStar)) (tokenize p')
    else if N.eqb c (ch "+") then option_map (cons (TQuant QPlus)) (tokenize p')
    else if mem c syntax_chars then None
    else option_map (cons (TSet (CChar c))) (tokenize p')
  end.

Definition quantify (q : quant) (a : cset) : item :=
  match q with QOpt => IOpt a | QStar => IStar a | QPlus => IPlus a end.

(** [acc] is the sequence read so far, last node first; [look] is the body
    of the lookahead that is open, last item first. *)
Fixpoint parse_tokens (ts : list token) (acc : list node)
         (look : option (list item)) : option regex :=
  match ts with
  | [] => match look with None => Some (rev acc) | Some _ => None end
  | t :: ts' =>
    match t, look with
    | TSet a, None => parse_tokens ts' (NItem (ISet a) :: acc) None
    | TSet a, Some b => parse_tokens ts' acc (Some (ISet a :: b))
    | TQuant q, None =>
      match acc with
      | NItem (ISet a) :: acc' => parse_tokens ts' (NItem (quantify q a) :: acc') None
      | _ => None
      end
    | TQuant q, Some b =>
      match b with
      | ISet a :: b' => parse_tokens ts' acc (Some (quantify q a :: b'))
      | _ => None
      end
    | TNegLook, None => parse_tokens ts' acc (Some [])
    | TNegLook, Some _ => None
    | TClose, Some b => parse_tokens ts' (NNegLook (rev b) :: acc) None
    | TClose, None => None
    end
  end.

(** [None] stands for the SyntaxError of the constructor (and for pattern
    syntax outside the fragment). *)
Definition parse (p : jsstring) : option regex :=
  match tokenize p with
  | Some ts => parse_tokens ts [] None
  | None => None
  end.

(** *** Matching: greedy, backtracking, in continuation-passing style *)

Section Matcher.
Variable A : Type.
(** A continuation receives the text that is left and answers with the
    match result; [None] makes the matcher try its next alternative. *)
Definition cont := jsstring -> option A.

Fixpoint star (a : cset) (s : jsstring) (k : cont) : option A :=
  match s with
  | c :: s' =>
    if cset_mem a c then
      match star a s' k with
      | Some r => Some r
      | None => k s
      end
    else k s
  | [] => k s
  end.

Definition m_item (i : item) (s : jsstring) (k : cont) : option A :=
  match i with
  | ISet a =>
    match s with
    | c :: s' => if cset_mem a c then k s' else None
    | [] => None
    end
  | IOpt a =>
    match s with
    | c :: s' =>
      if cset_mem a c then
        match k s' with
        | Some r => Some r
        | None => k s
        end
      else k s
    | [] => k s
    end
  | IStar a => star a s k
  | IPlus a =>
    match s with
    | c :: s' => if cset_mem a c then star a s' k else None
    | [] => None
    end
  end.

Fixpoint m_items (r : list item) (s : jsstring) (k : cont) : option A :=
  match r with
  | [] => k s
  | i :: r' => m_item i s (fun s' => m_items r' s' k)
  end.
End Matcher.
Arguments star {A} a s k.
Arguments m_item {A} i s k.
Arguments m_items {A} r s k.

Definition lookahead (body : list item) (s : jsstring) : bool :=
  match m_items body s (fun _ => Some tt) with
  | Some _ => true
  | None => false
  end.

Fixpoint m_nodes (r : regex) (s : jsstring) (k : cont jsstring) : option jsstring :=
  match r with
  | [] => k s
  | NItem i :: r' => m_item i s (fun s' => m_nodes r' s' k)
  | NNegLook body :: r' => if lookahead body s then None else m_nodes r' s k
  end.

(** The match that starts at the head of [s], as the text left after it. *)
Definition match_at (r : regex) (s : jsstring) : option jsstring :=
  m_nodes r s (@Some jsstring).

(** *** Replacing: [str.replace(re, replacement)] with the [g] flag *)

(** GetSubstitution for a pattern without capture groups: [$$], [$&],
    [$`] and [$'] are expanded, any other [$] stays as it is. *)
Fixpoint substitution (repl matched pre post : jsstring) : jsstring :=
  match repl with
  | [] => []
  | c :: t =>
    if N.eqb c (ch "$") then
      match t with
      | d :: t' =>
        if N.eqb d (ch "$") then ch "$" :: substitution t' matched pre post
        else if N.eqb d (ch "&") then matched ++ substitution t' matched pre post
        else if N.eqb d (ch "`") then pre ++ substitution t' matched pre post
        else if N.eqb d (ch "'") then post ++ substitution t' matched pre post
        else c :: substitution t matched pre post
      | [] => [c]
      end
    else c :: substitution t matched pre post
  end.

(** The scan goes through the text once. [skip] counts the characters
    still covered by the match found last; [pre] is the text before the
    position, last character first. After an empty match the scan moves
    on by one character. *)
Fixpoint replace_from (r : regex) (repl : jsstring) (pre : jsstring)
         (skip : nat) (s : jsstring) : jsstring :=
  match skip with
  | S n =>
    match s with
    | c :: s' => replace_from r repl (c :: pre) n s'
    | [] => []
    end
  | O =>
    match match_at r s with
    | Some rest =>
      let len := List.length s - List.length rest in
      let out := substitution repl (firstn len s) (rev pre) rest in
      match s with
      | c :: s' =>
        match len with
        | O => out ++ c :: replace_from r repl (c :: pre) 0 s'
        | S n => out ++ replace_from r repl (c :: pre) n s'
        end
      | [] => out
      end
    | None =>
      match s with
      | c :: s' => c :: replace_from r repl (c :: pre) 0 s'
      | [] => []
      end
    end
  end.

Definition replace_all (r : regex) (repl : jsstring) (s : jsstring) : jsstring :=
  replace_from r repl [] 0 s.

End RegExp.
Import RegExp.

(* ===================================================================== *)
(** ** Inline citations: [escapeRegExp] and the pattern *)
(* ===================================================================== *)

(** [/[.*+?^${}()|[\]\\]/g] *)
Definition syntax_class : regex := [NItem (ISet (COneOf syntax_chars))].

(** [str.replace(/[.*+?^${}()|[\]\\]/g, "\\$&")] *)
Definition escapeRegExp (str : jsstring) : jsstring :=
  replace_all syntax_class (lit "\$&") str.

(** ["\\(?\\s*" + escapeRegExp(citation) + "\\s*\\)?"] *)
Definition flexiblePattern (citation : jsstring) : jsstring :=
  lit "\(?\s*" ++ escapeRegExp citation ++ lit "\s*\)?".

(** [new RegExp(flexiblePattern + "(?!\\s*\\[\\d+\\])", "g")] *)
Definition citationPattern (citation : jsstring) : option regex :=
  parse (flexiblePattern citation ++ lit "(?!\s*\[\d+\])").

(** The marker button of the source at [index]. *)
Definition marker (index : nat) : jsstring :=
  lit "<button " ++ attr "type" (lit "button") ++ lit " "
  ++ attr "class" (lit "btn btn-link p-0 citation-link") ++ lit " "
  ++ attr "data-source-index" (of_nat index)
  ++ lit ">[" ++ of_nat (index + 1) ++ lit "]</button>".

(* ===================================================================== *)
(** ** Values of the response *)
(* ===================================================================== *)

(** A Source as the backend sends it: every field is an optional string
    ([None] when the property is absent or null). *)
Record Source := mkSource {
  case_name : option jsstring;
  citation : option jsstring;
  neutral_citation : option jsstring;
  court : option jsstring;
  judgment_date : option jsstring;
  summary : option jsstring;
  saflii_url : option jsstring;
  pdf_url : option jsstring
}.

Definition noSource : Source :=
  mkSource None None None None None None None None.

(** What the code can find in [data.answer] and [data.sources]. Numbers
    are the integers; arrays are arrays of Source objects; [VObject len]
    is any other object, with the value of its property [length]
    ([VUndefined] when it has none) and without properties named by an
    index. *)
Inductive value :=
| VUndefined
| VNull
| VBool (b : bool)
| VNum (z : Z)
| VStr (s : jsstring)
| VArray (l : list Source)
| VObject (len : value).

(** ToBoolean *)
Definition truthy (v : value) : bool :=
  match v with
  | VUndefined | VNull => false
  | VBool b => b
  | VNum z => negb (Z.eqb z 0)
  | VStr s => nonempty s
  | VArray _ | VObject _ => true
  end.

(** [a || b] *)
Definition or_else (a b : value) : value := if truthy a then a else b.

(** The same on an optional string field: [o] is truthy when it is a
    non-empty string. *)
Definition present (o : option jsstring) : bool :=
  match o with Some s => nonempty s | None => false end.

Definition field_or (a b : option jsstring) : option jsstring :=
  if present a then a else b.

(** [o || "text"] where the result is used as a string *)
Definition field_or_str (o : option jsstring) (d : jsstring) : jsstring :=
  match o with Some (c :: s) => c :: s | _ => d end.

(** [v.length] of a value that is neither [undefined] nor [null] *)
Definition length_of (v : value) : value :=
  match v with
  | VStr s => VNum (Z.of_nat (List.length s))
  | VArray l => VNum (Z.of_nat (List.length l))
  | VObject len => len
  | _ => VUndefined
  end.

(** [v === 0] *)
Definition is_zero (v : value) : bool :=
  match v with
  | VNum z => Z.eqb z 0
  | _ => false
  end.

(** A computation of the code either returns or throws. *)
Inductive result (A : Type) :=
| Ok (a : A)
| Throw.
Arguments Ok {A} a.
Arguments Throw {A}.

(* ===================================================================== *)
(** ** [applyInlineCitations] *)
(* ===================================================================== *)

(** [s.neutral_citation || s.citation] *)
Definition citationOf (s : Source) : option jsstring :=
  field_or (neutral_citation s) (citation s).

(** [annotated.replace(pattern, `${citation} ${marker}`)] for one source
    whose citation is [c]. *)
Definition replaceCitation (index : nat) (c : jsstring) (annotated : jsstring)
  : result jsstring :=
  match citationPattern c with
  | Some pattern => Ok (replace_all pattern (c ++ lit " " ++ marker index) annotated)
  | None => Throw
  end.

(** The callback of [sources.forEach], on the source [s] at [index].
    [annotated] holds whatever [answerText] was: calling [replace] on
    anything but a string throws. *)
Definition citeSource (index : nat) (s : Source) (annotated : value) : result value :=
  match citationOf s with
  | Some (c :: cs) =>
    match annotated with
    | VStr t =>
      match replaceCitation index (c :: cs) t with
      | Ok t' => Ok (VStr t')
      | Throw => Throw
      end
    | _ => Throw
    end
  | _ => Ok annotated
  end.

Fixpoint forEachSource (index : nat) (sources : list Source) (annotated : value)
  : result value :=
  match sources with
  | [] => Ok annotated
  | s :: rest =>
    match citeSource index s annotated with
    | Ok annotated' => forEachSource (S index) rest annotated'
    | Throw => Throw
    end
  end.

Definition applyInlineCitations (answerText sources : value) : result value :=
  if negb (truthy answerText) || negb (truthy sources)
     || is_zero (length_of sources)
  then Ok answerText
  else
    match sources with
    | VArray l => forEachSource 0 l answerText
    | _ => Throw
    end.

(** A source that carries only a plain citation. *)
Definition cited (c : string) : Source :=
  mkSource None (Some (lit c)) None None None None None None.

(* ===================================================================== *)
(** ** The page *)
(* ===================================================================== *)

(** One exchange of [chatHistory]. *)
Record Exchange := mkExchange {
  query : jsstring;
  answer : value;
  sources : value;
  time : jsstring
}.

(** A [.citation-link] button of a rendered answer: its
    [data-source-index] attribute, and the source its click listener
    opens when it has a listener. *)
Record citation_button := mkButton {
  source_index : option jsstring;
  on_click : option Source
}.

(** The children of [#messages]. *)
Inductive bubble :=
| EmptyStateDiv
| UserMsg (html : jsstring)
| BotMsg (html : jsstring) (buttons : list citation_button).

(** A child of [#historyList]: the placeholder, or the entry of one
    exchange with the three texts its template interpolates. *)
Inductive history_item :=
| HistoryPlaceholder (text : jsstring)
| HistoryEntry (label snippet item_time : jsstring).

(** A source card, by the texts its template interpolates. *)
Record card := mkCard {
  card_badge : jsstring;
  card_caseName : jsstring;
  card_citation : jsstring;
  card_court : jsstring;
  card_date : jsstring;
  card_summary : jsstring;
  card_safliiBtn : jsstring;
  card_pdfBtn : jsstring
}.

(** A child of [#sourcesList]. *)
Inductive sources_item :=
| SourcesPlaceholder (text : jsstring)
| SourceCard (c : card).

Record anchor := mkAnchor {
  href : jsstring;
  textContent : jsstring
}.

(** What the source modal shows. *)
Record modal_view := mkModal {
  modalTitle : jsstring;
  modalMeta : jsstring;
  modalBody : jsstring;
  modalLinks : list anchor
}.

(** The page and the variables of the script. Scrolling and the layout
    class of the content pane are left out. [outstanding] holds the query
    of every [fetch] that was issued and has not settled. *)
Record state := mkState {
  messagesDiv : list bubble;
  emptyState : bool;
  loading : bool;
  queryInput : jsstring;
  sendBtn_disabled : bool;
  historyList : list history_item;
  sourcesList : list sources_item;
  chatHistory : list Exchange;
  isThinking : bool;
  sourceModal : option modal_view;
  outstanding : list jsstring
}.

Definition set_messagesDiv (f : list bubble -> list bubble) (st : state) : state :=
  mkState (f (messagesDiv st)) (emptyState st) (loading st) (queryInput st)
          (sendBtn_disabled st) (historyList st) (sourcesList st) (chatHistory st)
          (isThinking st) (sourceModal st) (outstanding st).

Definition set_emptyState (b : bool) (st : state) : state :=
  mkState (messagesDiv st) b (loading st) (queryInput st)
          (sendBtn_disabled st) (historyList st) (sourcesList st) (chatHistory st)
          (isThinking st) (sourceModal st) (outstanding st).

Definition set_loading (b : bool) (st : state) : state :=
  mkState (messagesDiv st) (emptyState st) b (queryInput st)
          (sendBtn_disabled st) (historyList st) (sourcesList st) (chatHistory st)
          (isThinking st) (sourceModal st) (outstanding st).

Definition set_queryInput (v : jsstring) (st : state) : state :=
  mkState (messagesDiv st) (emptyState st) (loading st) v
          (sendBtn_disabled st) (historyList st) (sourcesList st) (chatHistory st)
          (isThinking st) (sourceModal st) (outstanding st).

Definition set_sendBtn_disabled (b : bool) (st : state) : state :=
  mkState (messagesDiv st) (emptyState st) (loading st) (queryInput st)
          b (historyList st) (sourcesList st) (chatHistory st)
          (isThinking st) (sourceModal st) (outstanding st).

Definition set_historyList (l : list history_item) (st : state) : state :=
  mkState (messagesDiv st) (emptyState st) (loading st) (queryInput st)
          (sendBtn_disabled st) l (sourcesList st) (chatHistory st)
          (isThinking st) (sourceModal st) (outstanding st).

Definition set_sourcesList (l : list sources_item) (st : state) : state :=
  mkState (messagesDiv st) (emptyState st) (loading st) (queryInput st)
          (sendBtn_disabled st) (historyList st) l (chatHistory st)
          (isThinking st) (sourceModal st) (outstanding st).

Definition set_chatHistory (f : list Exchange -> list Exchange) (st : state) : state :=
  mkState (messagesDiv st) (emptyState st) (loading st) (queryInput st)
          (sendBtn_disabled st) (historyList st) (sourcesList st) (f (chatHistory st))
          (isThinking st) (sourceModal st) (outstanding st).

Definition set_isThinking (b : bool) (st : state) : state :=
  mkState (messagesDiv st) (emptyState st) (loading st) (queryInput st)
          (sendBtn_disabled st) (historyList st) (sourcesList st) (chatHistory st)
          b (sourceModal st) (outstanding st).

Definition set_sourceModal (m : option modal_view) (st : state) : state :=
  mkState (messagesDiv st) (emptyState st) (loading st) (queryInput st)
          (sendBtn_disabled st) (historyList st) (sourcesList st) (chatHistory st)
          (isThinking st) m (outstanding st).

Definition set_outstanding (f : list jsstring -> list jsstring) (st : state) : state :=
  mkState (messagesDiv st) (emptyState st) (loading st) (queryInput st)
          (sendBtn_disabled st) (historyList st) (sourcesList st) (chatHistory st)
          (isThinking st) (sourceModal st) (f (outstanding st)).

(** *** UI helpers *)

Definition is_emptyStateDiv (b : bubble) : bool :=
  match b with EmptyStateDiv => true | _ => false end.

Definition hideEmptyState (st : state) : state :=
  if emptyState st then
    set_emptyState false
      (set_messagesDiv (filter (fun b => negb (is_emptyStateDiv b))) st)
  else st.

(** The trimmed texts of the example buttons of the placeholder. *)
Definition example_questions : list jsstring :=
  [lit "When is a statement defamatory in South African law?";
   lit "What must a plaintiff prove to succeed in delict?";
   lit "How do courts determine wrongfulness in negligence?"].

(** [messagesDiv.innerHTML = ""], then the new placeholder is appended;
    the listeners of its example buttons are the [ClickExample] events
    below. *)
Definition addEmptyState (st : state) : state :=
  set_emptyState true (set_messagesDiv (fun _ => [EmptyStateDiv]) st).

Definition updateSendState (st : state) : state :=
  let trimmed := trim (queryInput st) in
  let isEmpty := Nat.eqb (List.length trimmed) 0 in
  set_sendBtn_disabled (isEmpty || isThinking st) st.

Definition setThinking (on : bool) (st : state) : state :=
  updateSendState (set_loading on (set_isThinking on st)).

(** *** The source modal *)

Definition bullet : jsstring := lit " " ++ [8226%N] ++ lit " ".

(** [parts.join(sep)] *)
Fixpoint join (sep : jsstring) (parts : list jsstring) : jsstring :=
  match parts with
  | [] => []
  | [p] => p
  | p :: rest => p ++ sep ++ join sep rest
  end.

(** [if (x) metaParts.push(x)] *)
Definition push_if (x : jsstring) (parts : list jsstring) : list jsstring :=
  if nonempty x then parts ++ [x] else parts.

(** [if (url) { ... sourceModalLinks.appendChild(a) }] *)
Definition link_if (url : option jsstring) (text : string) (links : list anchor)
  : list anchor :=
  match url with
  | Some (c :: u) => links ++ [mkAnchor (c :: u) (lit text)]
  | _ => links
  end.

Definition modalOf (source : Source) : modal_view :=
  let caseName := field_or_str (case_name source) (lit "Case details") in
  let citation := field_or_str (citationOf source) [] in
  let court := field_or_str (court source) [] in
  let date := field_or_str (judgment_date source) [] in
  let summary :=
    field_or_str (summary source) (lit "No summary available for this source.") in
  let metaParts := push_if date (push_if court (push_if citation [])) in
  mkModal caseName (join bullet metaParts) summary
          (link_if (pdf_url source) "Open PDF"
             (link_if (saflii_url source) "View on SAFLII" [])).

Definition openSourceModal (source : Source) (st : state) : state :=
  set_sourceModal (Some (modalOf source)) st.

(** *** History and sources *)

Definition ellipsis : jsstring := [8230%N].

(** [item.query.length > 60 ? item.query.slice(0, 60) + "..." : item.query] *)
Definition snippetOf (q : jsstring) : jsstring :=
  if Nat.ltb 60 (List.length q) then slice0 60 q ++ ellipsis else q.

(** The callback of [chatHistory.forEach] in [renderHistory]. *)
Definition historyEntry (index : nat) (item : Exchange) : history_item :=
  HistoryEntry (lit "Query #" ++ of_nat (index + 1)) (snippetOf (query item)) (time item).

Fixpoint forEachExchange (index : nat) (items : list Exchange) : list history_item :=
  match items with
  | [] => []
  | item :: rest => historyEntry index item :: forEachExchange (S index) rest
  end.

Definition renderHistory (st : state) : state :=
  match chatHistory st with
  | [] => set_historyList [HistoryPlaceholder (lit "No questions yet.")] st
  | h => set_historyList (forEachExchange 0 h) st
  end.

Definition span_small (inner : jsstring) : jsstring :=
  lit "<span " ++ attr "class" (lit "small") ++ lit ">" ++ inner ++ lit "</span>".

Definition nl : jsstring := [10%N].

Definition link_button (url : jsstring) (classes text : string) : jsstring :=
  lit "<a " ++ attr "href" url ++ lit " " ++ attr "target" (lit "_blank") ++ nl
  ++ lit "           " ++ attr "class" (lit classes) ++ lit ">" ++ lit text ++ lit "</a>".

(** [o ? f(o) : ""] *)
Definition when_present (o : option jsstring) (f : jsstring -> jsstring) : jsstring :=
  match o with
  | Some (c :: s) => f (c :: s)
  | _ => []
  end.

(** The callback of [sources.forEach] in [renderSources]. *)
Definition sourceCard (index : nat) (s : Source) : card :=
  let n := index + 1 in
  mkCard (lit "[" ++ of_nat n ++ lit "]")
         (field_or_str (case_name s) (lit "Unknown Case"))
         (field_or_str (citationOf s) [])
         (when_present (court s) span_small)
         (when_present (judgment_date s) (fun d => span_small (bullet ++ d)))
         (field_or_str (summary s) [])
         (when_present (saflii_url s)
            (fun u => link_button u "btn btn-sm btn-primary me-2" "View on SAFLII"))
         (when_present (pdf_url s)
            (fun u => link_button u "btn btn-sm btn-primary" "Open PDF")).

Fixpoint forEachCard (index : nat) (l : list Source) : list sources_item :=
  match l with
  | [] => []
  | s :: rest => SourceCard (sourceCard index s) :: forEachCard (S index) rest
  end.

(** [renderSources(sources)]: the panel is emptied first; [forEach] on
    anything but an array throws, after the panel was emptied. *)
Definition renderSources (sources : value) (st : state) : state * result unit :=
  if negb (truthy sources) || is_zero (length_of sources)
  then (set_sourcesList [SourcesPlaceholder (lit "No sources yet.")] st, Ok tt)
  else
    match sources with
    | VArray l => (set_sourcesList (forEachCard 0 l) st, Ok tt)
    | _ => (set_sourcesList [] st, Throw)
    end.

(** *** Message bubbles *)

(** [text.replace(/\n/g, "<br>")] *)
Definition br (text : jsstring) : jsstring :=
  replace_all [NItem (ISet (CChar 10%N))] (lit "<br>") text.

Definition addUserMessage (text : jsstring) (st : state) : state :=
  set_messagesDiv (fun l => l ++ [UserMsg (br text)]) (hideEmptyState st).

(** [parseInt(x, 10)] of a [dataset] entry; [None] is NaN. An absent
    attribute reads as [undefined], which parses as the text
    "undefined". *)
Definition digit_value (c : jschar) : Z := Z.of_N c - 48.

Definition parseInt (x : option jsstring) : option Z :=
  let s := match x with Some s => s | None => lit "undefined" end in
  let s := dropWhile is_space s in
  let '(sign, s) :=
    match s with
    | c :: s' =>
      if N.eqb c (ch "-") then ((-1)%Z, s')
      else if N.eqb c (ch "+") then (1%Z, s')
      else (1%Z, s)
    | [] => (1%Z, s)
    end in
  match takeWhile is_digit s with
  | [] => None
  | ds => Some (sign * fold_left (fun acc d => 10 * acc + digit_value d) ds 0)%Z
  end.

(** [sourcesForMessage[idx]] when it is truthy. A character of a string
    is a primitive on which every property the modal reads is
    [undefined], as on a Source without fields. *)
Definition element_at (sourcesForMessage : value) (idx : Z) : option Source :=
  if (idx <? 0)%Z then None
  else
    match sourcesForMessage with
    | VArray l => nth_error l (Z.to_nat idx)
    | VStr s =>
      match nth_error s (Z.to_nat idx) with
      | Some _ => Some noSource
      | None => None
      end
    | _ => None
    end.

(** The listener that [addBotMessage] gives to one citation button. *)
Definition wire (sourcesForMessage : value) (a : option jsstring) : citation_button :=
  match parseInt a with
  | Some idx => mkButton a (element_at sourcesForMessage idx)
  | None => mkButton a None
  end.

Definition unwired (a : option jsstring) : citation_button := mkButton a None.

(** [sourcesForMessage && sourcesForMessage.length] *)
Definition has_sources (sourcesForMessage : value) : bool :=
  truthy sourcesForMessage && truthy (length_of sourcesForMessage).

Section Controller.

(** The Markdown renderer, on a string. *)
Variable marked_parse : jsstring -> jsstring.

(** The [data-source-index] attributes of the [.citation-link] elements
    that the browser finds in a bubble built from the given HTML, in
    document order. *)
Variable citationLinks : jsstring -> list (option jsstring).

Definition addBotMessage (html : jsstring) (sourcesForMessage : value) (st : state)
  : state :=
  let buttons :=
    if has_sources sourcesForMessage
    then map (wire sourcesForMessage) (citationLinks html)
    else map unwired (citationLinks html) in
  set_messagesDiv (fun l => l ++ [BotMsg html buttons]) (hideEmptyState st).

(** A click on button [b] of the message at position [m]. *)
Definition clickCitation (m b : nat) (st : state) : state :=
  match nth_error (messagesDiv st) m with
  | Some (BotMsg _ buttons) =>
    match nth_error buttons b with
    | Some (mkButton _ (Some source)) => openSourceModal source st
    | _ => st
    end
  | _ => st
  end.

Definition resetConversation (st : state) : state :=
  let st := addEmptyState st in
  let st := renderHistory st in
  let st := fst (renderSources (VArray []) st) in
  let st := set_queryInput [] st in
  let st := setThinking false st in
  updateSendState st.

(** *** [sendMessage] *)

(** How the request settles. [JsonBody a s]: the body parsed to a value
    that is not null, whose [answer] reads as [a] and whose [sources]
    reads as [s] ([VUndefined] when the property is missing). *)
Inductive response :=
| NetworkError
| NotJson
| JsonNull
| JsonBody (answer sources : value).

(** The part of [sendMessage] before the first [await]. *)
Definition sendMessage (st : state) : state :=
  let query := trim (queryInput st) in
  if negb (nonempty query) || isThinking st then st
  else
    let st := setThinking true st in
    let st := addUserMessage query st in
    let st := set_queryInput [] st in
    let st := updateSendState st in
    set_outstanding (fun l => l ++ [query]) st.

(** Statements that change the page and may throw. *)
Definition M (A : Type) := state -> state * result A.

Definition ret {A} (a : A) : M A := fun st => (st, Ok a).
Definition throw {A} : M A := fun st => (st, Throw).
Definition bind {A B} (c : M A) (k : A -> M B) : M B :=
  fun st =>
    match c st with
    | (st', Ok a) => k a st'
    | (st', Throw) => (st', Throw)
    end.
Definition effect (f : state -> state) : M unit := fun st => (f st, Ok tt).
Definition of_result {A} (r : result A) : M A := fun st => (st, r).

Notation "x <- c ;; k" := (bind c (fun x => k))
  (at level 61, c at next level, right associativity).
Notation "c ;;; k" := (bind c (fun _ => k))
  (at level 61, right associativity).

(** [await fetch(...)] followed by [await res.json()] *)
Definition await_json (r : response) : M (option (value * value)) :=
  match r with
  | NetworkError | NotJson => throw
  | JsonNull => ret None
  | JsonBody a s => ret (Some (a, s))
  end.

(** [marked.parse(x)]: the renderer rejects anything but a string. *)
Definition marked (x : value) : result jsstring :=
  match x with
  | VStr t => Ok (marked_parse t)
  | _ => Throw
  end.

Definition errorHtml : jsstring :=
  lit "<span " ++ attr "class" (lit "text-danger") ++ lit ">"
  ++ [9888%N; 65039%N] ++ lit " Error connecting to server. Please try again.</span>".

(** The [try] block, from the response on. *)
Definition tryBlock (query : jsstring) (r : response) (timeStr : jsstring) : M unit :=
  data <- await_json r ;;
  fields <- of_result (match data with Some f => Ok f | None => Throw end) ;;
  let sources := or_else (snd fields) (VArray []) in
  let rawAnswer := or_else (fst fields) (VStr []) in
  answerWithCitations <- of_result (applyInlineCitations rawAnswer sources) ;;
  htmlAnswer <- of_result (marked answerWithCitations) ;;
  effect (addBotMessage htmlAnswer sources) ;;;
  effect (set_chatHistory (fun h => h ++ [mkExchange query rawAnswer sources timeStr])) ;;;
  effect renderHistory ;;;
  renderSources sources.

(** The rest of [sendMessage], which runs when the request for [query]
    settles with [r]; [timeStr] is the time of day then. *)
Definition sendMessage_settle (query : jsstring) (r : response) (timeStr : jsstring)
           (st : state) : state :=
  let st :=
    match tryBlock query r timeStr st with
    | (st', Ok _) => st'
    | (st', Throw) => addBotMessage errorHtml VNull st'
    end in
  setThinking false st.

(** *** Events *)

(** What the user and the network do: typing into the input, submitting
    the form or pressing Enter, a click on the [n]-th example question of
    the placeholder, a click on the new-conversation button, the
    settling of the [i]-th outstanding request, and a click on a citation
    button. *)
Inductive event :=
| TypeText (text : jsstring)
| Submit
| ClickExample (n : nat)
| NewConversation
| Settle (i : nat) (r : response) (timeStr : jsstring)
| ClickCitation (m b : nat).

Fixpoint remove_nth {A} (i : nat) (l : list A) : list A :=
  match l, i with
  | [], _ => []
  | _ :: l', O => l'
  | x :: l', S j => x :: remove_nth j l'
  end.

Definition step (st : state) (e : event) : state :=
  match e with
  | TypeText text => updateSendState (set_queryInput text st)
  | Submit => sendMessage st
  | ClickExample n =>
    if existsb is_emptyStateDiv (messagesDiv st) then
      match nth_error example_questions n with
      | Some text => sendMessage (updateSendState (set_queryInput text st))
      | None => st
      end
    else st
  | NewConversation => resetConversation st
  | Settle i r timeStr =>
    match nth_error (outstanding st) i with
    | Some q => sendMessage_settle q r timeStr (set_outstanding (remove_nth i) st)
    | None => st
    end
  | ClickCitation m b => clickCitation m b st
  end.

Definition run (st : state) (es : list event) : state := fold_left step es st.

End Controller.

(** The page when the script has loaded: nothing typed, nothing asked. *)
Definition initial : state :=
  mkState [EmptyStateDiv] true false [] true [] [] [] false None [].

(** The browser of the examples: Markdown is rendered as it is, and an
    answer has one citation button for each of the given attributes. *)
Definition plain_marked (t : jsstring) : jsstring := t.
Definition links_of (l : list (option jsstring)) (html : jsstring)
  : list (option jsstring) := l.
Definition no_links : jsstring -> list (option jsstring) := links_of [].

(* ===================================================================== *)
(** ** The earlier copy of the script *)
(* ===================================================================== *)

Module Legacy.

(** The click listener of the new-conversation button in the earlier copy
    of the script, which has no in-flight flag: [chatHistory.length = 0]
    comes first, then the history and the sources are rendered again and
    the placeholder is put back. *)
Definition newConversation (st : state) : state :=
  let st := set_chatHistory (fun _ => []) st in
  let st := renderHistory st in
  let st := set_sourcesList [SourcesPlaceholder (lit "No sources returned.")] st in
  addEmptyState st.

(** [sendMessage] of the earlier copy, up to its [await]: the trimmed
    input is tested, and nothing else; the loader is shown and the
    request issued. The send button is not touched. *)
Definition sendMessage (st : state) : state :=
  let query := trim (queryInput st) in
  if negb (nonempty query) then st
  else
    let st := addUserMessage query st in
    let st := set_queryInput [] st in
    let st := set_loading true st in
    set_outstanding (fun l => l ++ [query]) st.

(** Typing each of the texts and pressing Enter after it. *)
Fixpoint sendAll (texts : list jsstring) (st : state) : state :=
  match texts with
  | [] => st
  | text :: rest => sendAll rest (sendMessage (set_queryInput text st))
  end.

End Legacy.

(* ===================================================================== *)
(** ** What a pattern matches *)
(* ===================================================================== *)

(** The words of an item, of a sequence of items, and the ways a pattern
    can match at the head of a text, stated without the order in which
    the matcher tries them. *)

Definition all_in (a : cset) (w : jsstring) : Prop := forallb (cset_mem a) w = true.

Definition item_lang (i : item) (w : jsstring) : Prop :=
  match i with
  | ISet a => exists c, w = [c] /\ cset_mem a c = true
  | IOpt a => w = [] \/ exists c, w = [c] /\ cset_mem a c = true
  | IStar a => all_in a w
  | IPlus a => w <> [] /\ all_in a w
  end.

Fixpoint items_lang (r : list item) (w : jsstring) : Prop :=
  match r with
  | [] => w = []
  | i :: r' => exists w1 w2, w = w1 ++ w2 /\ item_lang i w1 /\ items_lang r' w2
  end.

Fixpoint nodes_match (r : regex) (s rest : jsstring) : Prop :=
  match r with
  | [] => s = rest
  | NItem i :: r' =>
    exists w s', s = w ++ s' /\ item_lang i w /\ nodes_match r' s' rest
  | NNegLook body :: r' => lookahead body s = false /\ nodes_match r' s rest
  end.

(** The syntax tree of the citation pattern. *)
Definition lit_node (c : jschar) : node := NItem (ISet (CChar c)).

Definition guard_body : list item :=
  [IStar CSpace; ISet (CChar (ch "[")); IPlus CDigit; ISet (CChar (ch "]"))].

Definition citation_regex (c : jsstring) : regex :=
  [NItem (IOpt (CChar (ch "("))); NItem (IStar CSpace)]
  ++ map lit_node c
  ++ [NItem (IStar CSpace); NItem (IOpt (CChar (ch ")"))); NNegLook guard_body].

(** An optional parenthesis, a run of white space, and a bracketed index
    after optional white space. *)
Definition optional (p : jschar) (w : jsstring) : Prop := w = [] \/ w = [p].

Definition spaces (w : jsstring) : Prop := forallb is_space w = true.

Definition digits (w : jsstring) : Prop := forallb is_digit w = true.

Definition index_follows (post : jsstring) : Prop :=
  exists w ds tail,
    post = w ++ [ch "["] ++ ds ++ [ch "]"] ++ tail
    /\ spaces w /\ ds <> [] /\ digits ds.

(** What [escapeRegExp] does to one character. *)
Definition escape_char (c : jschar) : jsstring :=
  if mem c syntax_chars then [ch "\"; c] else [c].

(* ===================================================================== *)
(** ** Properties of the page *)
(* ===================================================================== *)

(** At most one request is outstanding, and the in-flight flag is set
    while there is one. *)
Definition at_most_one (st : state) : Prop :=
  List.length (outstanding st) <= 1
  /\ (outstanding st <> [] -> isThinking st = true).

Definition idle (st : state) : bool :=
  match outstanding st with [] => true | _ :: _ => false end.

(** Along the events [es] from [st], the conversation is reset only when
    no request is outstanding. *)
Fixpoint resets_when_idle (marked_parse : jsstring -> jsstring)
         (citationLinks : jsstring -> list (option jsstring))
         (st : state) (es : list event) : bool :=
  match es with
  | [] => true
  | e :: es' =>
    match e with NewConversation => idle st | _ => true end
    && resets_when_idle marked_parse citationLinks
         (step marked_parse citationLinks st e) es'
  end.

(** The request itself failed: [fetch] rejected, or the body did not
    parse to an object. *)
Definition failed (r : response) : bool :=
  match r with
  | NetworkError | NotJson | JsonNull => true
  | JsonBody _ _ => false
  end.

(** The history panel shows the exchanges of [chatHistory]. *)
Definition history_in_sync (st : state) : Prop :=
  historyList st = historyList (renderHistory st).

(** What the [try] block records for the response fields [a] and [s]. *)
Definition recorded (q : jsstring) (a s : value) (t : jsstring) : Exchange :=
  mkExchange q (or_else a (VStr [])) (or_else s (VArray [])) t.

(** The text holds white space only. *)
Definition blank (s : jsstring) : bool := forallb is_space s.

(** The send button is disabled exactly while the input is blank or the
    in-flight flag is set, and the loader is shown exactly while the flag
    is set. *)
Definition ui_consistent (st : state) : Prop :=
  sendBtn_disabled st = (blank (queryInput st) || isThinking st)
  /\ loading st = isThinking st.

(** The placeholder is the only child of the message list while the
    variable [emptyState] holds it, and is not in the list otherwise. *)
Definition placeholder_alone (st : state) : Prop :=
  (emptyState st = true /\ messagesDiv st = [EmptyStateDiv])
  \/ (emptyState st = false /\ existsb is_emptyStateDiv (messagesDiv st) = false).

(** What [addUserMessage] does to one character of the text. *)
Definition newline_to_br (c : jschar) : jsstring :=
  if N.eqb c 10 then lit "<br>" else [c].

(** The positions of a text from which the pattern finds no match. *)
Definition no_match_from (r : regex) (s : jsstring) : Prop :=
  forall k, match_at r (skipn k s) = None.



(** What [fetch] delivers: it rejects, or it resolves with a reply of
    some HTTP status whose body [res.json()] parses or not. The code
    reads neither [res.ok] nor [res.status]. *)
Inductive body :=
| BodyNotJson
| BodyNull
| BodyObject (answer sources : value).

Inductive fetched :=
| Rejected
| Resolved (status : nat) (b : body).

Definition response_of (f : fetched) : response :=
  match f with
  | Rejected => NetworkError
  | Resolved _ BodyNotJson => NotJson
  | Resolved _ BodyNull => JsonNull
  | Resolved _ (BodyObject a s) => JsonBody a s
  end.

(** The placeholder is alone when shown, and the in-flight flag is clear
    while it is shown. *)
Definition placeholder_idle (st : state) : Prop :=
  placeholder_alone st
  /\ (existsb is_emptyStateDiv (messagesDiv st) = true -> isThinking st = false).

(* ===================================================================== *)
(** ** The matcher against the words *)
(* ===================================================================== *)

Section MatcherFacts.
Variable A : Type.
Implicit Types (k : cont A) (s w : jsstring).

Lemma star_skip a s k : k s <> None -> star a s k <> None.
Proof.
  intros Hk. destruct s as [|c s']; simpl; [exact Hk|].
  destruct (cset_mem a c); [|exact Hk].
  destruct (star a s' k); [discriminate|exact Hk].
Qed.

Lemma star_complete a w s k :
  all_in a w -> k s <> None -> star a (w ++ s) k <> None.
Proof.
  unfold all_in. induction w as [|c w IH]; simpl; intros Hw Hk.
  - now apply star_skip.
  - apply andb_prop in Hw as [Hc Hw]. rewrite Hc.
    specialize (IH Hw Hk). destruct (star a (w ++ s) k); [discriminate|contradiction].
Qed.

Lemma star_sound a s k x :
  star a s k = Some x ->
  exists w s', s = w ++ s' /\ all_in a w /\ k s' = Some x.
Proof.
  unfold all_in. induction s as [|c s IH]; simpl; intros H.
  - exists [], []. auto.
  - destruct (cset_mem a c) eqn:Hc.
    + destruct (star a s k) eqn:Hs.
      * injection H as ->. destruct (IH eq_refl) as (w & s' & -> & Hw & Hk).
        exists (c :: w), s'. simpl. rewrite Hc, Hw. auto.
      * exists [], (c :: s). auto.
    + exists [], (c :: s). auto.
Qed.

Lemma m_item_complete i w s k :
  item_lang i w -> k s <> None -> m_item i (w ++ s) k <> None.
Proof.
  destruct i as [a|a|a|a]; simpl.
  - intros (c & -> & Hc) Hk. simpl. now rewrite Hc.
  - intros [->|(c & -> & Hc)] Hk; simpl.
    + destruct s as [|c s']; [exact Hk|].
      destruct (cset_mem a c); [|exact Hk].
      destruct (k s'); [discriminate|exact Hk].
    + rewrite Hc. destruct (k s); [discriminate|contradiction].
  - apply star_complete.
  - intros [Hne Hw] Hk. destruct w as [|c w]; [contradiction|].
    simpl in *. unfold all_in in Hw. simpl in Hw.
    apply andb_prop in Hw as [Hc Hw]. rewrite Hc. now apply star_complete.
Qed.

Lemma m_item_sound i s k x :
  m_item i s k = Some x ->
  exists w s', s = w ++ s' /\ item_lang i w /\ k s' = Some x.
Proof.
  destruct i as [a|a|a|a]; simpl.
  - destruct s as [|c s]; [discriminate|].
    destruct (cset_mem a c) eqn:Hc; [|discriminate].
    intros H. exists [c], s. eauto.
  - destruct s as [|c s].
    + intros H. exists [], []. auto.
    + destruct (cset_mem a c) eqn:Hc.
      * destruct (k s) eqn:Hk.
        -- intros [= ->]. exists [c], s. eauto 6.
        -- intros H. exists [], (c :: s). auto.
      * intros H. exists [], (c :: s). auto.
  - apply star_sound.
  - destruct s as [|c s]; [discriminate|].
    destruct (cset_mem a c) eqn:Hc; [|discriminate].
    intros H. apply star_sound in H as (w & s' & -> & Hw & Hk).
    exists (c :: w), s'. repeat split; auto; [discriminate|].
    unfold all_in in *. simpl. now rewrite Hc, Hw.
Qed.

Lemma m_items_complete r : forall w s k,
  items_lang r w -> k s <> None -> m_items r (w ++ s) k <> None.
Proof.
  induction r as [|i r IH]; simpl; intros w s k.
  - now intros ->.
  - intros (w1 & w2 & -> & H1 & H2) Hk. rewrite <- app_assoc.
    apply m_item_complete; auto.
Qed.

Lemma m_items_sound r : forall s k x,
  m_items r s k = Some x ->
  exists w s', s = w ++ s' /\ items_lang r w /\ k s' = Some x.
Proof.
  induction r as [|i r IH]; simpl; intros s k x H.
  - exists [], s. auto.
  - apply m_item_sound in H as (w1 & s1 & -> & H1 & H).
    apply IH in H as (w2 & s2 & -> & H2 & H).
    exists (w1 ++ w2), s2. rewrite app_assoc. eauto 8.
Qed.

End MatcherFacts.

Lemma lookahead_spec body s :
  lookahead body s = true <-> exists w s', s = w ++ s' /\ items_lang body w.
Proof.
  unfold lookahead. split.
  - destruct (m_items body s (fun _ => Some tt)) eqn:H; [|discriminate].
    intros _. apply m_items_sound in H as (w & s' & -> & Hw & _). eauto.
  - intros (w & s' & -> & Hw).
    pose proof (@m_items_complete unit body w s' (fun _ => Some tt) Hw) as H.
    destruct (m_items body (w ++ s') (fun _ => Some tt)); [reflexivity|].
    exfalso. apply H; [discriminate|reflexivity].
Qed.

Lemma m_nodes_sound r : forall s k x,
  m_nodes r s k = Some x -> exists rest, nodes_match r s rest /\ k rest = Some x.
Proof.
  induction r as [|[i|body] r IH]; simpl; intros s k x H.
  - eauto.
  - apply m_item_sound in H as (w & s' & -> & Hw & H).
    apply IH in H as (rest & Hr & Hk). eauto 8.
  - destruct (lookahead body s) eqn:Hl; [discriminate|].
    apply IH in H as (rest & Hr & Hk). eauto.
Qed.

Lemma m_nodes_complete r : forall s rest k,
  nodes_match r s rest -> k rest <> None -> m_nodes r s k <> None.
Proof.
  induction r as [|[i|body] r IH]; simpl; intros s rest k.
  - now intros ->.
  - intros (w & s' & -> & Hw & Hr) Hk. apply m_item_complete; eauto.
  - intros [Hl Hr] Hk. rewrite Hl. eauto.
Qed.

(** A match found by the matcher is one of the ways the pattern can
    match, and when there is a way the matcher finds a match. *)
Lemma match_at_sound r s rest : match_at r s = Some rest -> nodes_match r s rest.
Proof.
  unfold match_at. intros H. apply m_nodes_sound in H as (rest' & Hr & [= ->]). exact Hr.
Qed.

Lemma match_at_complete r s rest :
  nodes_match r s rest -> exists rest', match_at r s = Some rest'.
Proof.
  intros H. pose proof (@m_nodes_complete r s rest (@Some jsstring) H) as Hc.
  unfold match_at. destruct (m_nodes r s (@Some jsstring)); [eauto|].
  exfalso. apply Hc; [discriminate|reflexivity].
Qed.

(* ===================================================================== *)
(** ** The citation pattern *)
(* ===================================================================== *)

Lemma escapeRegExp_flat_map str : escapeRegExp str = flat_map escape_char str.
Proof.
  unfold escapeRegExp, replace_all. generalize (@nil jschar) as pre.
  induction str as [|c s IH]; intros pre; [reflexivity|].
  cbn [replace_from flat_map]. unfold match_at, syntax_class. cbn [m_nodes m_item cset_mem].
  unfold escape_char. destruct (mem c syntax_chars).
  - replace (List.length (c :: s) - List.length s) with 1
      by (cbn [List.length]; lia).
    fold syntax_class. rewrite IH. reflexivity.
  - fold syntax_class. now rewrite IH.
Qed.

Lemma syntax_char_cases c :
  mem c syntax_chars = true -> In c syntax_chars.
Proof.
  unfold mem. rewrite existsb_exists. intros (x & Hx & Heq).
  apply N.eqb_eq in Heq. now subst.
Qed.

Lemma not_syntax_char c d :
  mem c syntax_chars = false -> In d syntax_chars -> N.eqb c d = false.
Proof.
  intros Hm Hd. apply N.eqb_neq. intros ->.
  assert (mem d syntax_chars = true) as E; [|congruence].
  unfold mem. apply existsb_exists. exists d. split; [exact Hd|apply N.eqb_refl].
Qed.

Lemma escape_class_syntax c :
  mem c syntax_chars = true -> escape_class c = Some (CChar c).
Proof.
  intros H. pose proof (syntax_char_cases c H) as Hin.
  unfold escape_class. rewrite H.
  cbv in Hin. repeat (destruct Hin as [<-|Hin]; [reflexivity|]). contradiction.
Qed.

Lemma tokenize_escaped c : forall rest,
  tokenize (escapeRegExp c ++ rest)
  = option_map (app (map (fun x => TSet (CChar x)) c)) (tokenize rest).
Proof.
  rewrite escapeRegExp_flat_map.
  induction c as [|x c IH]; intros rest; cbn [flat_map map app].
  - now destruct (tokenize rest).
  - unfold escape_char at 1. destruct (mem x syntax_chars) eqn:Hx.
    + cbn [app tokenize]. rewrite N.eqb_refl, (escape_class_syntax x Hx), IH.
      now destruct (tokenize rest).
    + cbn [app tokenize].
      rewrite !(not_syntax_char x _ Hx) by (cbv; repeat (first [left; reflexivity | right])).
      rewrite Hx, IH. now destruct (tokenize rest).
Qed.

Lemma parse_tokens_literal c : forall ts acc,
  parse_tokens (map (fun x => TSet (CChar x)) c ++ ts) acc None
  = parse_tokens ts (rev (map lit_node c) ++ acc) None.
Proof.
  induction c as [|x c IH]; intros ts acc; [reflexivity|].
  cbn [map app parse_tokens rev]. rewrite IH, <- app_assoc. reflexivity.
Qed.

(** The constructor accepts the pattern of every citation, and reads it
    as: an optional "(", white space, the citation character by
    character, white space, an optional ")", and the guard. *)
Lemma citationPattern_regex c : citationPattern c = Some (citation_regex c).
Proof.
  unfold citationPattern, flexiblePattern, parse.
  rewrite <- !app_assoc.
  remember (escapeRegExp c ++ lit "\s*\)?" ++ lit "(?!\s*\[\d+\])") as tail eqn:Etail.
  assert (tokenize tail
          = Some (map (fun x => TSet (CChar x)) c
                  ++ [TSet CSpace; TQuant QStar; TSet (CChar (ch ")")); TQuant QOpt;
                      TNegLook; TSet CSpace; TQuant QStar; TSet (CChar (ch "["));
                      TSet CDigit; TQuant QPlus; TSet (CChar (ch "]")); TClose]))
    as Htail by (subst tail; rewrite tokenize_escaped; reflexivity).
  cbn. rewrite Htail. cbn [option_map parse_tokens quantify].
  rewrite parse_tokens_literal.
  cbn [parse_tokens quantify rev app].
  rewrite !rev_app_distr, rev_involutive, <- !app_assoc. reflexivity.
Qed.

Lemma nodes_match_literal c : forall r s rest,
  nodes_match (map lit_node c ++ r) s rest
  <-> exists s', s = c ++ s' /\ nodes_match r s' rest.
Proof.
  induction c as [|x c IH]; intros r s rest; cbn [map app nodes_match].
  - split; [eauto|]. now intros (s' & -> & H).
  - split.
    + intros (w & s' & -> & (y & -> & Hy) & H). cbn in Hy.
      apply N.eqb_eq in Hy as ->. apply IH in H as (s'' & -> & H).
      exists s''. split; [reflexivity|exact H].
    + intros (s' & -> & H). exists [x], (c ++ s'). repeat split.
      * exists x. cbn. now rewrite N.eqb_refl.
      * apply IH. eauto.
Qed.

Lemma optional_lang p w : item_lang (IOpt (CChar p)) w <-> optional p w.
Proof.
  unfold optional. cbn. split.
  - intros [->|(c & -> & Hc)]; [now left|]. apply N.eqb_eq in Hc as ->. now right.
  - intros [->| ->]; [now left|]. right. exists p. now rewrite N.eqb_refl.
Qed.

(** The guard looks for a bracketed index after optional white space. *)
Lemma guard_spec post : lookahead guard_body post = true <-> index_follows post.
Proof.
  rewrite lookahead_spec. unfold index_follows, guard_body. cbn [items_lang item_lang].
  split.
  - intros (w & s' & -> & w1 & r1 & -> & Hw1 & w2 & r2 & -> & (c2 & -> & Hc2)
            & w3 & r3 & -> & (Hne & Hw3) & w4 & r4 & -> & (c4 & -> & Hc4) & ->).
    cbn in Hc2, Hc4. apply N.eqb_eq in Hc2 as ->. apply N.eqb_eq in Hc4 as ->.
    exists w1, w3, s'. rewrite <- !app_assoc. cbn. auto.
  - intros (w & ds & tail & -> & Hw & Hne & Hds).
    exists (w ++ [ch "["] ++ ds ++ [ch "]"]), tail. split.
    { now rewrite <- !app_assoc. }
    exists w, ([ch "["] ++ ds ++ [ch "]"]). repeat split; auto.
    exists [ch "["], (ds ++ [ch "]"]). repeat split.
    { exists (ch "["). auto. }
    exists ds, [ch "]"]. repeat split; auto.
    exists [ch "]"], []. repeat split. exists (ch "]"). auto.
Qed.

(** The ways the citation pattern matches at the head of a text. *)
Lemma citation_regex_match c text rest :
  nodes_match (citation_regex c) text rest
  <-> exists lp w1 w2 rp,
        text = lp ++ w1 ++ c ++ w2 ++ rp ++ rest
        /\ optional (ch "(") lp /\ spaces w1 /\ spaces w2 /\ optional (ch ")") rp
        /\ ~ index_follows rest.
Proof.
  unfold citation_regex. cbn [app nodes_match]. split.
  - intros (lp & s1 & -> & Hlp & w1 & s2 & -> & Hw1 & H).
    apply nodes_match_literal in H as (s3 & -> & H). cbn [nodes_match] in H.
    destruct H as (w2 & s4 & -> & Hw2 & rp & s5 & -> & Hrp & Hg & ->).
    exists lp, w1, w2, rp. repeat split; auto.
    + now apply optional_lang.
    + now apply optional_lang.
    + rewrite <- guard_spec. now rewrite Hg.
  - intros (lp & w1 & w2 & rp & -> & Hlp & Hw1 & Hw2 & Hrp & Hg).
    exists lp, (w1 ++ c ++ w2 ++ rp ++ rest). repeat split.
    { now apply optional_lang. }
    exists w1, (c ++ w2 ++ rp ++ rest). repeat split; auto.
    apply nodes_match_literal. exists (w2 ++ rp ++ rest). split; [reflexivity|].
    cbn [nodes_match]. exists w2, (rp ++ rest). repeat split; auto.
    exists rp, rest. repeat split.
    { now apply optional_lang. }
    destruct (lookahead guard_body rest) eqn:E; [|reflexivity].
    apply guard_spec in E. contradiction.
Qed.

(* ===================================================================== *)
(** ** Inline citation annotation *)
(* ===================================================================== *)

(** C1. The annotation step is not idempotent on the code: the guard of
    the pattern looks for a bare bracketed index after the citation,
    while the marker that the step inserts starts with a button tag. For
    the answer "X" and one source cited "X", the first application gives
    the citation, a space and the marker; applied to that output, the
    step matches the citation with the space after it again and inserts a
    second marker. *)
Theorem applyInlineCitations_marks_twice :
  applyInlineCitations (VStr (lit "X")) (VArray [cited "X"])
  = Ok (VStr (lit "X " ++ marker 0))
  /\ applyInlineCitations (VStr (lit "X " ++ marker 0)) (VArray [cited "X"])
     = Ok (VStr (lit "X " ++ marker 0 ++ marker 0))
  /\ lit "X " ++ marker 0 ++ marker 0 <> lit "X " ++ marker 0.
Proof.
  split; [vm_compute; reflexivity|].
  split; [vm_compute; reflexivity|].
  intros H. apply (f_equal (@List.length jschar)) in H. vm_compute in H. discriminate.
Qed.

(** The example of the specification: the citation "(2001) ABC 1" in
    "See Smith v Jones (2001) ABC 1 [and again later]". The first
    application takes the space before the citation into the match and
    inserts one marker; the second application inserts another one. *)
Example smith_v_jones_twice :
  let srcs := VArray [cited "(2001) ABC 1"] in
  let once := lit "See Smith v Jones(2001) ABC 1 " ++ marker 0 ++ lit "[and again later]" in
  applyInlineCitations (VStr (lit "See Smith v Jones (2001) ABC 1 [and again later]")) srcs
  = Ok (VStr once)
  /\ applyInlineCitations (VStr once) srcs
     = Ok (VStr (lit "See Smith v Jones(2001) ABC 1 " ++ marker 0 ++ marker 0
                 ++ lit "[and again later]")).
Proof. split; vm_compute; reflexivity. Qed.

(** The guard does skip a citation that is followed by a bare index. *)
Example bare_index_is_skipped :
  applyInlineCitations (VStr (lit "see X [1]")) (VArray [cited "X"])
  = Ok (VStr (lit "see X [1]")).
Proof. vm_compute. reflexivity. Qed.

(** For every citation and every index, the text that the step writes
    (the citation, a space, the marker) is matched by the pattern of the
    citation again: after the citation and the space comes the "<" of the
    marker, which is no bracketed index. *)
Lemma marker_is_no_index index rest : ~ index_follows (marker index ++ rest).
Proof.
  intros (w & ds & tail & H & Hw & _).
  change (marker index ++ rest) with (ch "<" :: (tl (marker index) ++ rest)) in H.
  destruct w as [|x w]; [discriminate|].
  injection H as <- _. unfold spaces in Hw. cbn in Hw. discriminate.
Qed.

Lemma written_citation_matches_again c index rest :
  exists rest',
    match_at (citation_regex c) (c ++ lit " " ++ marker index ++ rest) = Some rest'.
Proof.
  apply (match_at_complete (citation_regex c) _ (marker index ++ rest)).
  apply citation_regex_match. exists [], [], (lit " "), [].
  repeat split; try (now left); try reflexivity.
  apply marker_is_no_index.
Qed.

(** C5, as stated, fails: the pattern is compiled with the flag [g] only,
    so a citation in another letter case is not matched and the answer
    stays as it is. *)
Lemma citation_pattern_case_sensitive :
  exists r,
    citationPattern (lit "ABC") = Some r
    /\ match_at r (lit "abc") = None
    /\ applyInlineCitations (VStr (lit "see abc")) (VArray [cited "ABC"])
       = Ok (VStr (lit "see abc")).
Proof.
  eexists. split; [vm_compute; reflexivity|].
  split; vm_compute; reflexivity.
Qed.

(** C5, amended. For every source with a non-empty citation, the
    constructor accepts the pattern, and the pattern matches at the head
    of a text exactly when the text starts with: an optional "(", any
    white space, the citation verbatim in its own letter case, any white
    space, an optional ")", and then no bracketed index. *)
Theorem citation_pattern_matches_verbatim (s : Source) (c text : jsstring) :
  citationOf s = Some c ->
  c <> [] ->
  exists r,
    citationPattern c = Some r
    /\ ((exists rest, match_at r text = Some rest)
        <-> (exists lp w1 w2 rp post,
               text = lp ++ w1 ++ c ++ w2 ++ rp ++ post
               /\ optional (ch "(") lp /\ spaces w1 /\ spaces w2
               /\ optional (ch ")") rp /\ ~ index_follows post)).
Proof.
  intros _ _. exists (citation_regex c). split; [apply citationPattern_regex|].
  split.
  - intros (rest & H). apply match_at_sound, citation_regex_match in H.
    destruct H as (lp & w1 & w2 & rp & H). exists lp, w1, w2, rp, rest. exact H.
  - intros (lp & w1 & w2 & rp & post & H).
    apply (match_at_complete (citation_regex c) text post).
    apply citation_regex_match. exists lp, w1, w2, rp. exact H.
Qed.

Lemma citation_pattern_matches_verbatim_witness :
  exists r,
    citationPattern (lit "X") = Some r
    /\ ((exists rest, match_at r (lit "( X ) and") = Some rest)
        <-> (exists lp w1 w2 rp post,
               lit "( X ) and" = lp ++ w1 ++ lit "X" ++ w2 ++ rp ++ post
               /\ optional (ch "(") lp /\ spaces w1 /\ spaces w2
               /\ optional (ch ")") rp /\ ~ index_follows post)).
Proof.
  apply (citation_pattern_matches_verbatim (cited "X")).
  - reflexivity.
  - discriminate.
Defined.

(** A source without a citation is passed over by [forEach]. *)
Lemma citeSource_skips s index annotated :
  present (citationOf s) = false -> citeSource index s annotated = Ok annotated.
Proof.
  unfold citeSource, present. destruct (citationOf s) as [[|c cs]|]; auto. discriminate.
Qed.

Lemma forEachSource_all_skipped l : forall index annotated,
  Forall (fun s => present (citationOf s) = false) l ->
  forEachSource index l annotated = Ok annotated.
Proof.
  induction l as [|s l IH]; intros index annotated H; [reflexivity|].
  inversion H as [|? ? Hs Hl]; subst. cbn [forEachSource].
  rewrite (citeSource_skips s index annotated Hs). now apply IH.
Qed.




(** With the plain citation alone, the plain citation is shown. *)
Example plain_citation_is_shown :
  card_citation (sourceCard 0 (cited "2001 (1) SA 1")) = lit "2001 (1) SA 1"
  /\ modalMeta (modalOf (cited "2001 (1) SA 1")) = lit "2001 (1) SA 1".
Proof. split; reflexivity. Qed.

(** The same source on a concrete answer: the neutral citation is the
    one that is searched for and written back. *)
Example neutral_citation_is_marked :
  applyInlineCitations (VStr (lit "in [2001] ZACC 1, 2001 (1) SA 1."))
    (VArray [mkSource None (Some (lit "2001 (1) SA 1")) (Some (lit "[2001] ZACC 1"))
                      None None None None None])
  = Ok (VStr (lit "in[2001] ZACC 1 " ++ marker 0 ++ lit ", 2001 (1) SA 1.")).
Proof. vm_compute. reflexivity. Qed.

(* ===================================================================== *)
(** ** Source presentation *)
(* ===================================================================== *)

(** C6, as stated, fails: a source without [case_name] and [summary] gets
    placeholder texts, on the card and in the modal. *)
Lemma absent_fields_get_placeholders :
  card_caseName (sourceCard 0 noSource) = lit "Unknown Case"
  /\ modalTitle (modalOf noSource) = lit "Case details"
  /\ modalBody (modalOf noSource) = lit "No summary available for this source.".
Proof. repeat split. Qed.

Lemma join_push_if (parts : list jsstring) x :
  push_if x parts = parts ++ filter nonempty [x].
Proof. unfold push_if. cbn. destruct (nonempty x); [reflexivity|now rewrite app_nil_r]. Qed.

(** C6, amended. On the card, an absent court, date, summary, citation or
    link leaves an empty text in its place; in the modal, the meta line
    joins only the citation, court and date that are there, and there is
    one link for each URL that is there. A source with neither URL has no
    link on the card and none in the modal. An absent [case_name] shows
    as "Unknown Case" on the card and "Case details" in the modal, and an
    absent [summary] shows as a fixed sentence in the modal. *)
Theorem absent_fields_omitted (s : Source) (index : nat) :
  let c := sourceCard index s in
  let m := modalOf s in
  (present (court s) = false -> card_court c = [])
  /\ (present (judgment_date s) = false -> card_date c = [])
  /\ (present (summary s) = false -> card_summary c = [])
  /\ (present (citationOf s) = false -> card_citation c = [])
  /\ (present (saflii_url s) = false -> card_safliiBtn c = [])
  /\ (present (pdf_url s) = false -> card_pdfBtn c = [])
  /\ modalMeta m
     = join bullet (filter nonempty [field_or_str (citationOf s) [];
                                     field_or_str (court s) [];
                                     field_or_str (judgment_date s) []])
  /\ List.length (modalLinks m)
     = (if present (saflii_url s) then 1 else 0) + (if present (pdf_url s) then 1 else 0)
  /\ (present (saflii_url s) = false -> present (pdf_url s) = false ->
      card_safliiBtn c = [] /\ card_pdfBtn c = [] /\ modalLinks m = [])
  /\ (present (case_name s) = false ->
      card_caseName c = lit "Unknown Case" /\ modalTitle m = lit "Case details")
  /\ (present (summary s) = false ->
      modalBody m = lit "No summary available for this source.").
Proof.
  cbv zeta. unfold sourceCard, modalOf, present, when_present, field_or_str, link_if.
  cbn [card_court card_date card_summary card_citation card_safliiBtn card_pdfBtn
       card_caseName modalMeta modalLinks modalTitle modalBody].
  repeat split.
  - destruct (court s) as [[|? ?]|]; auto; discriminate.
  - destruct (judgment_date s) as [[|? ?]|]; auto; discriminate.
  - destruct (summary s) as [[|? ?]|]; auto; discriminate.
  - destruct (citationOf s) as [[|? ?]|]; auto; discriminate.
  - destruct (saflii_url s) as [[|? ?]|]; auto; discriminate.
  - destruct (pdf_url s) as [[|? ?]|]; auto; discriminate.
  - rewrite !join_push_if. cbn [app filter].
    destruct (citationOf s) as [[|? ?]|], (court s) as [[|? ?]|],
             (judgment_date s) as [[|? ?]|]; reflexivity.
  - destruct (saflii_url s) as [[|? ?]|], (pdf_url s) as [[|? ?]|]; reflexivity.
  - destruct (saflii_url s) as [[|? ?]|]; auto; discriminate.
  - destruct (pdf_url s) as [[|? ?]|]; auto; discriminate.
  - destruct (saflii_url s) as [[|? ?]|], (pdf_url s) as [[|? ?]|];
      auto; discriminate.
  - destruct (case_name s) as [[|? ?]|]; auto; discriminate.
  - destruct (case_name s) as [[|? ?]|]; auto; discriminate.
  - destruct (summary s) as [[|? ?]|]; auto; discriminate.
Qed.

Lemma absent_fields_omitted_witness :
  let s := mkSource (Some (lit "S v Makwanyane")) (Some (lit "1995 (3) SA 391"))
                    None None None None None None in
  card_safliiBtn (sourceCard 0 s) = [] /\ card_pdfBtn (sourceCard 0 s) = []
  /\ modalLinks (modalOf s) = [].
Proof.
  cbv zeta.
  apply (absent_fields_omitted
           (mkSource (Some (lit "S v Makwanyane")) (Some (lit "1995 (3) SA 391"))
                     None None None None None None) 0); reflexivity.
Defined.

(* ===================================================================== *)
(** ** The history panel *)
(* ===================================================================== *)

Lemma forEachExchange_length items : forall index,
  List.length (forEachExchange index items) = List.length items.
Proof. induction items as [|x l IH]; intros index; cbn; [reflexivity|now rewrite IH]. Qed.

Lemma forEachExchange_nth items : forall index i item,
  nth_error items i = Some item ->
  nth_error (forEachExchange index items) i = Some (historyEntry (index + i) item).
Proof.
  induction items as [|x l IH]; intros index i item H.
  - destruct i; discriminate.
  - destruct i as [|i]; cbn in *.
    + injection H as ->. now rewrite Nat.add_0_r.
    + rewrite (IH (S index) i item H). now rewrite Nat.add_succ_r.
Qed.

Lemma historyList_renderHistory st :
  historyList (renderHistory st)
  = match chatHistory st with
    | [] => [HistoryPlaceholder (lit "No questions yet.")]
    | h => forEachExchange 0 h
    end.
Proof. unfold renderHistory. now destruct (chatHistory st). Qed.

Lemma renderHistory_fields st :
  messagesDiv (renderHistory st) = messagesDiv st
  /\ chatHistory (renderHistory st) = chatHistory st
  /\ sourcesList (renderHistory st) = sourcesList st
  /\ isThinking (renderHistory st) = isThinking st
  /\ queryInput (renderHistory st) = queryInput st
  /\ outstanding (renderHistory st) = outstanding st.
Proof. unfold renderHistory. destruct (chatHistory st) eqn:E; cbn; auto 10. Qed.

(** C8. After [renderHistory] the panel has one entry for each exchange,
    in the order of [chatHistory]; the entry of the exchange at position
    [i] is labelled with [i + 1], and its preview is the whole query when
    that has at most 60 code units, and otherwise its first 60 code units
    followed by the ellipsis character. *)
Theorem renderHistory_entries (st : state) (i : nat) (item : Exchange) :
  nth_error (chatHistory st) i = Some item ->
  exists snippet,
    nth_error (historyList (renderHistory st)) i
    = Some (HistoryEntry (lit "Query #" ++ of_nat (i + 1)) snippet (time item))
    /\ List.length (historyList (renderHistory st)) = List.length (chatHistory st)
    /\ (List.length (query item) <= 60 -> snippet = query item)
    /\ (60 < List.length (query item) ->
        snippet = firstn 60 (query item) ++ [8230%N]
        /\ List.length snippet = 61).
Proof.
  intros H. exists (snippetOf (query item)). rewrite historyList_renderHistory.
  destruct (chatHistory st) as [|x l] eqn:E; [destruct i; discriminate|].
  split; [|split; [|split]].
  - now rewrite (forEachExchange_nth (x :: l) 0 i item H).
  - apply forEachExchange_length.
  - intros Hle. unfold snippetOf.
    destruct (Nat.ltb_spec 60 (List.length (query item))); [lia|reflexivity].
  - intros Hlt. unfold snippetOf, slice0, ellipsis.
    destruct (Nat.ltb_spec 60 (List.length (query item))); [|lia].
    split; [reflexivity|]. rewrite length_app, length_firstn. cbn [List.length]. lia.
Qed.

Lemma renderHistory_entries_witness :
  let ex1 := mkExchange (lit "What is delict?") (VStr (lit "A wrong.")) (VArray [])
                        (lit "10:01") in
  let ex2 := mkExchange (lit "And wrongfulness?") (VStr (lit "A test.")) (VArray [])
                        (lit "10:02") in
  let st := mkState [] false false [] true [] [] [ex1; ex2] false None [] in
  exists snippet,
    nth_error (historyList (renderHistory st)) 1
    = Some (HistoryEntry (lit "Query #" ++ of_nat (1 + 1)) snippet (lit "10:02"))
    /\ List.length (historyList (renderHistory st)) = 2
    /\ (List.length (lit "And wrongfulness?") <= 60 -> snippet = lit "And wrongfulness?")
    /\ (60 < List.length (lit "And wrongfulness?") ->
        snippet = firstn 60 (lit "And wrongfulness?") ++ [8230%N]
        /\ List.length snippet = 61).
Proof.
  cbv zeta.
  apply (renderHistory_entries
           (mkState [] false false [] true [] []
              [mkExchange (lit "What is delict?") (VStr (lit "A wrong.")) (VArray [])
                          (lit "10:01");
               mkExchange (lit "And wrongfulness?") (VStr (lit "A test.")) (VArray [])
                          (lit "10:02")]
              false None [])
           1
           (mkExchange (lit "And wrongfulness?") (VStr (lit "A test.")) (VArray [])
                       (lit "10:02"))).
  reflexivity.
Defined.

(** The labels of the first entries, and a query of 61 code units. *)
Example history_labels :
  map (fun i => lit "Query #" ++ of_nat (i + 1)) [0; 1; 9]
  = [lit "Query #1"; lit "Query #2"; lit "Query #10"].
Proof. reflexivity. Qed.

Example snippet_of_61 :
  snippetOf (repeat (ch "a") 61) = repeat (ch "a") 60 ++ [8230%N]
  /\ snippetOf (repeat (ch "a") 60) = repeat (ch "a") 60.
Proof. split; reflexivity. Qed.

(* ===================================================================== *)
(** ** Citation buttons *)
(* ===================================================================== *)

Lemma hideEmptyState_fields st :
  emptyState (hideEmptyState st) = false
  /\ loading (hideEmptyState st) = loading st
  /\ queryInput (hideEmptyState st) = queryInput st
  /\ sendBtn_disabled (hideEmptyState st) = sendBtn_disabled st
  /\ historyList (hideEmptyState st) = historyList st
  /\ sourcesList (hideEmptyState st) = sourcesList st
  /\ chatHistory (hideEmptyState st) = chatHistory st
  /\ isThinking (hideEmptyState st) = isThinking st
  /\ sourceModal (hideEmptyState st) = sourceModal st
  /\ outstanding (hideEmptyState st) = outstanding st.
Proof.
  unfold hideEmptyState. destruct (emptyState st) eqn:E; cbn; auto 12.
Qed.

Lemma nth_error_last {A} (l : list A) (x : A) :
  nth_error (l ++ [x]) (List.length (l ++ [x]) - 1) = Some x.
Proof.
  rewrite length_app. cbn [List.length].
  replace (List.length l + 1 - 1) with (List.length l) by lia.
  rewrite nth_error_app2 by lia. now rewrite Nat.sub_diag.
Qed.

Section Buttons.
Variable citationLinks : jsstring -> list (option jsstring).

(** C10. In the bubble that [addBotMessage] builds for a list of
    sources, a citation button whose [data-source-index] does not parse
    as a number, or parses as a number below zero or not below the length
    of the list, gets no click listener, and a click on it leaves the
    page as it is. Every listener that is attached opens the source that
    stands at the parsed index of the list of this very message. *)
Theorem unwired_marker_has_no_listener
        (html : jsstring) (l : list Source) (st : state) (b : nat) (a : option jsstring) :
  nth_error (citationLinks html) b = Some a ->
  let st' := addBotMessage citationLinks html (VArray l) st in
  let m := List.length (messagesDiv st') - 1 in
  exists buttons,
    nth_error (messagesDiv st') m = Some (BotMsg html buttons)
    /\ (parseInt a = None
        \/ (exists idx, parseInt a = Some idx
                        /\ (idx < 0 \/ Z.of_nat (List.length l) <= idx)%Z) ->
        nth_error buttons b = Some (mkButton a None)
        /\ clickCitation m b st' = st')
    /\ (forall source, nth_error buttons b = Some (mkButton a (Some source)) ->
        exists idx, parseInt a = Some idx /\ (0 <= idx)%Z
                    /\ nth_error l (Z.to_nat idx) = Some source).
Proof.
  intros Ha. cbv zeta. unfold addBotMessage.
  set (buttons := if has_sources (VArray l) then map (wire (VArray l)) (citationLinks html)
                  else map unwired (citationLinks html)).
  exists buttons. cbn [messagesDiv set_messagesDiv].
  assert (nth_error
            (messagesDiv (hideEmptyState st) ++ [BotMsg html buttons])
            (List.length (messagesDiv (hideEmptyState st) ++ [BotMsg html buttons]) - 1)
          = Some (BotMsg html buttons)) as Hlast by apply nth_error_last.
  split; [exact Hlast|]. split.
  - intros Hbad.
    assert (nth_error buttons b = Some (mkButton a None)) as Hb.
    { subst buttons. destruct (has_sources (VArray l)).
      - rewrite nth_error_map, Ha. cbn. unfold wire.
        destruct Hbad as [-> | (idx & -> & Hidx)]; [reflexivity|].
        unfold element_at. destruct (Z.ltb_spec idx 0); [reflexivity|].
        destruct Hidx as [?|Hge]; [lia|].
        replace (nth_error l (Z.to_nat idx)) with (@None Source); [reflexivity|].
        symmetry. apply nth_error_None. lia.
      - rewrite nth_error_map, Ha. reflexivity. }
    split; [exact Hb|].
    unfold clickCitation. cbn [messagesDiv set_messagesDiv].
    rewrite Hlast, Hb. reflexivity.
  - intros source Hb. subst buttons. destruct (has_sources (VArray l)).
    + rewrite nth_error_map, Ha in Hb. cbn in Hb. unfold wire in Hb.
      destruct (parseInt a) as [idx|]; [|discriminate].
      injection Hb as Hb. exists idx. split; [reflexivity|].
      unfold element_at in Hb. destruct (Z.ltb_spec idx 0); [discriminate|].
      split; [lia|exact Hb].
    + rewrite nth_error_map, Ha in Hb. discriminate.
Qed.

End Buttons.

Lemma unwired_marker_has_no_listener_witness :
  let links := links_of [Some (lit "0"); Some (lit "7"); Some (lit "x"); None] in
  let st' := addBotMessage links (lit "<p>hi</p>") (VArray [cited "X"]) initial in
  exists buttons,
    nth_error (messagesDiv st') (List.length (messagesDiv st') - 1)
    = Some (BotMsg (lit "<p>hi</p>") buttons)
    /\ (parseInt (Some (lit "7")) = None
        \/ (exists idx, parseInt (Some (lit "7")) = Some idx
                        /\ (idx < 0 \/ Z.of_nat (List.length [cited "X"]) <= idx)%Z) ->
        nth_error buttons 1 = Some (mkButton (Some (lit "7")) None)
        /\ clickCitation (List.length (messagesDiv st') - 1) 1 st' = st')
    /\ (forall source,
          nth_error buttons 1 = Some (mkButton (Some (lit "7")) (Some source)) ->
          exists idx, parseInt (Some (lit "7")) = Some idx /\ (0 <= idx)%Z
                      /\ nth_error [cited "X"] (Z.to_nat idx) = Some source).
Proof.
  cbv zeta.
  apply (unwired_marker_has_no_listener
           (links_of [Some (lit "0"); Some (lit "7"); Some (lit "x"); None])
           (lit "<p>hi</p>") [cited "X"] initial 1 (Some (lit "7"))).
  reflexivity.
Defined.

(** What the four attributes above parse to, and which buttons are
    wired. *)
Example parseInt_examples :
  map parseInt [Some (lit "0"); Some (lit "7"); Some (lit "x"); None;
                Some (lit " 12px"); Some (lit "-1")]
  = [Some 0%Z; Some 7%Z; None; None; Some 12%Z; Some (-1)%Z].
Proof. reflexivity. Qed.

Example wired_buttons :
  map (fun a => on_click (wire (VArray [cited "X"]) a))
      [Some (lit "0"); Some (lit "7"); Some (lit "x"); None]
  = [Some (cited "X"); None; None; None].
Proof. reflexivity. Qed.

(* ===================================================================== *)
(** ** Conversation reset *)
(* ===================================================================== *)

(** What [resetConversation] leaves behind, for every page: the source
    panel, the input and the flag are cleared, and [chatHistory] is what
    it was, so the history panel shows the placeholder only when there
    was no exchange. *)
Lemma resetConversation_fields st :
  let st' := resetConversation st in
  chatHistory st' = chatHistory st
  /\ historyList st' = match chatHistory st with
                       | [] => [HistoryPlaceholder (lit "No questions yet.")]
                       | h => forEachExchange 0 h
                       end
  /\ sourcesList st' = [SourcesPlaceholder (lit "No sources yet.")]
  /\ messagesDiv st' = [EmptyStateDiv]
  /\ queryInput st' = []
  /\ isThinking st' = false
  /\ loading st' = false
  /\ sendBtn_disabled st' = true
  /\ outstanding st' = outstanding st.
Proof.
  cbv zeta. unfold resetConversation, renderHistory, addEmptyState.
  cbn [chatHistory set_emptyState set_messagesDiv].
  destruct (chatHistory st) eqn:E; cbn; rewrite ?E; repeat split.
Qed.

(** The earlier copy of the script empties [chatHistory] first. *)
Lemma legacy_newConversation_fields st :
  chatHistory (Legacy.newConversation st) = []
  /\ historyList (Legacy.newConversation st)
     = [HistoryPlaceholder (lit "No questions yet.")].
Proof. split; reflexivity. Qed.

(** C2. The code does not clear the history. After one exchange ("hi",
    answered "ok" at 10:00), [resetConversation] clears the source panel,
    the input field and the in-flight flag, but [chatHistory] still holds
    the exchange and the history panel still shows its entry; the click
    listener of the earlier copy of the script empties both. *)
Theorem resetConversation_keeps_history :
  let st := run plain_marked no_links initial
                [TypeText (lit "hi"); Submit;
                 Settle 0 (JsonBody (VStr (lit "ok")) (VArray [])) (lit "10:00")] in
  chatHistory st = [mkExchange (lit "hi") (VStr (lit "ok")) (VArray []) (lit "10:00")]
  /\ chatHistory (resetConversation st) = chatHistory st
  /\ historyList (resetConversation st)
     = [HistoryEntry (lit "Query #1") (lit "hi") (lit "10:00")]
  /\ sourcesList (resetConversation st) = [SourcesPlaceholder (lit "No sources yet.")]
  /\ queryInput (resetConversation st) = []
  /\ isThinking (resetConversation st) = false
  /\ chatHistory (Legacy.newConversation st) = []
  /\ historyList (Legacy.newConversation st)
     = [HistoryPlaceholder (lit "No questions yet.")].
Proof. cbv zeta. repeat apply conj; vm_compute; reflexivity. Qed.

(* ===================================================================== *)
(** ** Sending *)
(* ===================================================================== *)

Lemma sendMessage_noop st :
  trim (queryInput st) = [] \/ isThinking st = true -> sendMessage st = st.
Proof.
  unfold sendMessage. intros [-> | ->]; [reflexivity|].
  now rewrite orb_true_r.
Qed.

Lemma sendMessage_sends st :
  trim (queryInput st) <> [] -> isThinking st = false ->
  outstanding (sendMessage st) = outstanding st ++ [trim (queryInput st)]
  /\ isThinking (sendMessage st) = true
  /\ queryInput (sendMessage st) = []
  /\ messagesDiv (sendMessage st)
     = messagesDiv (hideEmptyState st) ++ [UserMsg (br (trim (queryInput st)))]
  /\ chatHistory (sendMessage st) = chatHistory st
  /\ historyList (sendMessage st) = historyList st.
Proof.
  intros Hq Ht. unfold sendMessage. rewrite Ht.
  destruct (trim (queryInput st)) as [|c q] eqn:E; [contradiction|].
  cbn [nonempty negb orb]. unfold addUserMessage, setThinking, updateSendState, hideEmptyState.
  destruct st as [ms es ld qi sd hl sl chh th sm out]. cbn. destruct es; cbn; auto 10.
Qed.

Section Sending.
Variable marked_parse : jsstring -> jsstring.
Variable citationLinks : jsstring -> list (option jsstring).

Local Abbreviation settle := (sendMessage_settle marked_parse citationLinks).
Local Abbreviation step_ := (step marked_parse citationLinks).
Local Abbreviation run_ := (run marked_parse citationLinks).

Lemma addBotMessage_fields html v st :
  let st' := addBotMessage citationLinks html v st in
  chatHistory st' = chatHistory st
  /\ historyList st' = historyList st
  /\ sourcesList st' = sourcesList st
  /\ isThinking st' = isThinking st
  /\ queryInput st' = queryInput st
  /\ outstanding st' = outstanding st.
Proof.
  cbv zeta. unfold addBotMessage. cbn.
  destruct (hideEmptyState_fields st) as (_ & _ & ? & _ & ? & ? & ? & ? & _ & ?).
  auto 10.
Qed.

Lemma setThinking_fields on st :
  let st' := setThinking on st in
  isThinking st' = on
  /\ loading st' = on
  /\ sendBtn_disabled st' = (Nat.eqb (List.length (trim (queryInput st))) 0 || on)
  /\ messagesDiv st' = messagesDiv st
  /\ chatHistory st' = chatHistory st
  /\ historyList st' = historyList st
  /\ sourcesList st' = sourcesList st
  /\ queryInput st' = queryInput st
  /\ outstanding st' = outstanding st.
Proof. cbv zeta. unfold setThinking, updateSendState. cbn. auto 10. Qed.

(** A request that failed goes straight to the handler. *)
Lemma tryBlock_failed q r t st :
  failed r = true -> tryBlock marked_parse citationLinks q r t st = (st, Throw).
Proof. destruct r; [reflexivity..|discriminate]. Qed.

(** C4, amended. When the request itself fails (the fetch is rejected, or
    the body of the reply, whatever its HTTP status, is not JSON or is
    null), one bubble is appended to the message list, and it is the
    error bubble: the warning sign and "Error connecting to server.
    Please try again." in a span of class text-danger, with no listener.
    [chatHistory] and the two panels are what they were, and the send
    button is enabled as soon as the input is not blank, so that the next
    [sendMessage] goes through. After every reply, failed or not, the
    in-flight flag is cleared and the loader hidden. *)
Theorem request_failure_one_error_bubble
        (q : jsstring) (f : fetched) (t : jsstring) (st : state) :
  let st' := settle q (response_of f) t st in
  let html := lit "<span " ++ attr "class" (lit "text-danger") ++ lit ">"
              ++ [9888%N; 65039%N]
              ++ lit " Error connecting to server. Please try again.</span>" in
  isThinking st' = false
  /\ loading st' = false
  /\ (failed (response_of f) = true ->
      messagesDiv st'
      = messagesDiv (hideEmptyState st) ++ [BotMsg html (map unwired (citationLinks html))]
      /\ chatHistory st' = chatHistory st
      /\ historyList st' = historyList st
      /\ sourcesList st' = sourcesList st
      /\ sendBtn_disabled st' = Nat.eqb (List.length (trim (queryInput st))) 0
      /\ (trim (queryInput st') <> [] ->
          outstanding (sendMessage st') = outstanding st' ++ [trim (queryInput st')])).
Proof.
  cbv zeta. unfold sendMessage_settle.
  set (st2 := match tryBlock marked_parse citationLinks q (response_of f) t st with
              | (st1, Ok _) => st1
              | (st1, Throw) => addBotMessage citationLinks errorHtml VNull st1
              end).
  destruct (setThinking_fields false st2) as (Ht & Hl & Hd & Hm & Hc & Hh & Hs & Hq & Ho).
  split; [exact Ht|]. split; [exact Hl|]. intros Hr.
  assert (st2 = addBotMessage citationLinks errorHtml VNull st) as E.
  { subst st2. now rewrite (tryBlock_failed q (response_of f) t st Hr). }
  destruct (addBotMessage_fields errorHtml VNull st) as (Hc1 & Hh1 & Hs1 & _ & Hq1 & Ho1).
  rewrite <- E in Hc1, Hh1, Hs1, Hq1, Ho1.
  rewrite Hm, Hc, Hh, Hs, Hd, Hc1, Hh1, Hs1, Hq1, orb_false_r.
  split; [now rewrite E|]. repeat split.
  intros Hne. now apply sendMessage_sends.
Qed.

End Sending.

Lemma request_failure_one_error_bubble_witness :
  let st := run plain_marked no_links initial [TypeText (lit "hi"); Submit] in
  let st' := sendMessage_settle plain_marked no_links (lit "hi")
               (response_of (Resolved 502 BodyNotJson)) (lit "10:00") st in
  messagesDiv st' = messagesDiv (hideEmptyState st) ++ [BotMsg errorHtml []]
  /\ chatHistory st' = chatHistory st
  /\ isThinking st' = false.
Proof.
  cbv zeta.
  pose proof (request_failure_one_error_bubble plain_marked no_links
                (lit "hi") (Resolved 502 BodyNotJson) (lit "10:00")
                (run plain_marked no_links initial [TypeText (lit "hi"); Submit])) as H.
  cbv zeta in H. destruct H as (Ht & _ & H). destruct (H eq_refl) as (Hm & Hc & _).
  split; [exact Hm|]. split; [exact Hc|exact Ht].
Defined.

(** C4, as stated, fails on two replies that the specification counts as
    failures. A reply with an HTTP error status whose body is a JSON
    object without [answer] and [sources], as an error report of the
    server is, is processed as an answer: an empty assistant bubble, no
    error bubble, and an exchange in [chatHistory]. And when the reply
    carries an empty answer and the string "x" as [sources], the handler
    runs after the exchange was pushed: the error bubble comes after the
    answer bubble, and the exchange stays recorded. *)
Lemma error_status_is_no_failure :
  let st := run plain_marked no_links initial [TypeText (lit "q"); Submit] in
  let st1 := sendMessage_settle plain_marked no_links (lit "q")
               (response_of (Resolved 500 (BodyObject VUndefined VUndefined)))
               (lit "10:00") st in
  let st2 := sendMessage_settle plain_marked no_links (lit "q")
               (JsonBody (VStr []) (VStr (lit "x"))) (lit "10:00") st in
  messagesDiv st1 = [UserMsg (lit "q"); BotMsg [] []]
  /\ chatHistory st1 = [mkExchange (lit "q") (VStr []) (VArray []) (lit "10:00")]
  /\ messagesDiv st2 = [UserMsg (lit "q"); BotMsg [] []; BotMsg errorHtml []]
  /\ chatHistory st2 = [mkExchange (lit "q") (VStr []) (VStr (lit "x")) (lit "10:00")]
  /\ chatHistory st = [].
Proof. cbv zeta. repeat apply conj; vm_compute; reflexivity. Qed.

(* ===================================================================== *)
(** ** The send gate and the response fields *)
(* ===================================================================== *)

Section Gate.
Variable marked_parse : jsstring -> jsstring.
Variable citationLinks : jsstring -> list (option jsstring).

Local Abbreviation settle := (sendMessage_settle marked_parse citationLinks).
Local Abbreviation step_ := (step marked_parse citationLinks).
Local Abbreviation run_ := (run marked_parse citationLinks).
Local Abbreviation try_ := (tryBlock marked_parse citationLinks).

Lemma renderSources_frame v st :
  let st' := fst (renderSources v st) in
  outstanding st' = outstanding st
  /\ isThinking st' = isThinking st
  /\ chatHistory st' = chatHistory st
  /\ historyList st' = historyList st
  /\ messagesDiv st' = messagesDiv st
  /\ queryInput st' = queryInput st.
Proof.
  cbv zeta. unfold renderSources.
  destruct (negb (truthy v) || _); [cbn; auto 10|].
  destruct v; cbn; auto 10.
Qed.

(** The [try] block either throws before it has recorded anything, or
    it records the exchange and renders the history, after which only
    [renderSources] can still throw. It issues no request. *)
Lemma tryBlock_cases q r t st :
  let st' := fst (try_ q r t st) in
  outstanding st' = outstanding st
  /\ ((chatHistory st' = chatHistory st /\ historyList st' = historyList st
       /\ snd (try_ q r t st) = Throw)
      \/ (exists a s, r = JsonBody a s
                      /\ chatHistory st' = chatHistory st ++ [recorded q a s t]
                      /\ history_in_sync st')).
Proof.
  cbv zeta. unfold tryBlock, bind, await_json, of_result, effect, ret, throw.
  destruct r as [| | |a s]; try (split; [reflexivity|left; repeat split]).
  cbn [fst snd].
  destruct (applyInlineCitations _ _) as [v|];
    [|split; [reflexivity|left; repeat split]].
  destruct (marked marked_parse v) as [html|];
    [|split; [reflexivity|left; repeat split]].
  set (st1 := addBotMessage citationLinks html _ st).
  set (st2 := set_chatHistory _ st1).
  destruct (renderSources_frame (or_else s (VArray [])) (renderHistory st2))
    as (Ho & _ & Hc & Hh & _).
  destruct (renderSources (or_else s (VArray [])) (renderHistory st2)) as [st3 res] eqn:E.
  cbn [fst] in Ho, Hc, Hh.
  destruct (renderHistory_fields st2) as (_ & Hc2 & _ & _ & _ & Ho2).
  assert (chatHistory st2 = chatHistory st ++ [recorded q a s t]) as Hpush.
  { subst st2 st1. cbn. f_equal. apply hideEmptyState_fields. }
  assert (outstanding st2 = outstanding st) as Hout.
  { subst st2 st1. cbn. apply hideEmptyState_fields. }
  assert (outstanding st3 = outstanding st) as Ho3 by congruence.
  assert (chatHistory st3 = chatHistory st ++ [recorded q a s t]) as Hc3 by congruence.
  assert (history_in_sync st3) as Hsync.
  { unfold history_in_sync. rewrite Hh, !historyList_renderHistory, Hc, Hc2.
    reflexivity. }
  destruct res as [u|]; cbn [fst snd]; (split; [exact Ho3|right; exists a, s; auto]).
Qed.

Lemma settle_fields q r t st :
  let st' := settle q r t st in
  outstanding st' = outstanding st
  /\ isThinking st' = false
  /\ ((chatHistory st' = chatHistory st /\ historyList st' = historyList st)
      \/ (exists a s, r = JsonBody a s
                      /\ chatHistory st' = chatHistory st ++ [recorded q a s t]
                      /\ history_in_sync st')).
Proof.
  cbv zeta. unfold sendMessage_settle.
  destruct (tryBlock_cases q r t st) as (Ho & Hcases). cbv zeta in Ho, Hcases.
  destruct (try_ q r t st) as [st1 res]. cbn [fst snd] in Ho, Hcases.
  set (st2 := match res with
              | Ok _ => st1
              | Throw => addBotMessage citationLinks errorHtml VNull st1
              end).
  assert (outstanding st2 = outstanding st1 /\ chatHistory st2 = chatHistory st1
          /\ historyList st2 = historyList st1) as (Ho2 & Hc2 & Hh2).
  { subst st2. destruct res; [auto|].
    destruct (addBotMessage_fields citationLinks errorHtml VNull st1)
      as (? & ? & _ & _ & _ & ?). auto. }
  destruct (setThinking_fields false st2)
    as (Ht & _ & _ & _ & Hc & Hh & _ & _ & Hout).
  rewrite Hout, Ht, Ho2, Ho. split; [reflexivity|]. split; [reflexivity|].
  destruct Hcases as [(Hc1 & Hh1 & _)|(a & s & -> & Hc1 & Hsync)].
  - left. split; congruence.
  - right. exists a, s. split; [reflexivity|]. split; [congruence|].
    unfold history_in_sync in *. rewrite !historyList_renderHistory in *.
    rewrite Hh, Hh2, Hc, Hc2. exact Hsync.
Qed.

Lemma settle_outstanding q r t st :
  outstanding (settle q r t st) = outstanding st
  /\ isThinking (settle q r t st) = false.
Proof. destruct (settle_fields q r t st) as (? & ? & _). auto. Qed.

Lemma remove_nth_short {A} (l : list A) i x :
  List.length l <= 1 -> nth_error l i = Some x -> remove_nth i l = [].
Proof.
  destruct l as [|y [|z l]]; cbn; intros Hl Hn.
  - destruct i; discriminate.
  - destruct i as [|[|i]]; [reflexivity|discriminate..].
  - lia.
Qed.

Lemma sendMessage_at_most_one st : at_most_one st -> at_most_one (sendMessage st).
Proof.
  intros [Hlen Hflag].
  destruct (list_eq_dec N.eq_dec (trim (queryInput st)) []) as [E|E].
  { rewrite sendMessage_noop by auto. now split. }
  destruct (isThinking st) eqn:Ht.
  { rewrite sendMessage_noop by auto. split; [exact Hlen|]. now rewrite Ht. }
  destruct (sendMessage_sends st E Ht) as (Ho & Hth & _).
  unfold at_most_one. rewrite Ho, Hth.
  destruct (outstanding st) as [|x l].
  - split; [cbn; lia|reflexivity].
  - assert (false = true) by (apply Hflag; discriminate). discriminate.
Qed.

(** Every event but a reset in flight keeps the requests at one. *)
Lemma step_at_most_one st e :
  at_most_one st ->
  match e with NewConversation => idle st | _ => true end = true ->
  at_most_one (step_ st e).
Proof.
  intros Hst He. pose proof Hst as [Hlen Hflag].
  destruct e as [text| |n| |i r t|m b]; cbn [step].
  - split; cbn; assumption.
  - now apply sendMessage_at_most_one.
  - destruct (existsb is_emptyStateDiv (messagesDiv st)); [|exact Hst].
    destruct (nth_error example_questions n) as [text|]; [|exact Hst].
    apply sendMessage_at_most_one. split; cbn; assumption.
  - destruct (resetConversation_fields st) as (_ & _ & _ & _ & _ & Ht & _ & _ & Ho).
    unfold idle in He. unfold at_most_one.
    split; rewrite Ho; destruct (outstanding st); try discriminate.
    + cbn; lia.
    + intros H. now contradiction H.
  - destruct (nth_error (outstanding st) i) as [q|] eqn:En; [|now split].
    destruct (settle_outstanding q r t (set_outstanding (remove_nth i) st)) as [Ho Ht].
    unfold at_most_one.
    split; rewrite Ho; cbn [outstanding set_outstanding];
      rewrite (remove_nth_short (outstanding st) i q Hlen En).
    + cbn; lia.
    + intros H. now contradiction H.
  - unfold clickCitation.
    destruct (nth_error (messagesDiv st) m) as [[|?|html buttons]|]; try now split.
    destruct (nth_error buttons b) as [[a [src|]]|]; now split.
Qed.

Lemma run_at_most_one es : forall st,
  at_most_one st ->
  resets_when_idle marked_parse citationLinks st es = true ->
  at_most_one (run_ st es).
Proof.
  induction es as [|e es IH]; intros st Hst Hes; [exact Hst|].
  cbn [resets_when_idle] in Hes. apply andb_prop in Hes as [He Hes].
  unfold run. cbn [fold_left]. apply IH; [|exact Hes].
  now apply step_at_most_one.
Qed.

(** [sendMessage] itself records nothing. *)
Lemma sendMessage_history st :
  chatHistory (sendMessage st) = chatHistory st
  /\ historyList (sendMessage st) = historyList st.
Proof.
  destruct (list_eq_dec N.eq_dec (trim (queryInput st)) []) as [E|E].
  { rewrite sendMessage_noop by auto. auto. }
  destruct (isThinking st) eqn:Ht.
  { rewrite sendMessage_noop by auto. auto. }
  destruct (sendMessage_sends st E Ht) as (_ & _ & _ & _ & ? & ?). auto.
Qed.

(** No event removes or reorders an exchange: [chatHistory] only grows,
    at its end. *)
Lemma step_chatHistory_grows st e :
  exists suffix, chatHistory (step_ st e) = chatHistory st ++ suffix.
Proof.
  destruct e as [text| |n| |i r t|m b]; cbn [step].
  - exists []. now rewrite app_nil_r.
  - exists []. rewrite app_nil_r. apply sendMessage_history.
  - exists []. rewrite app_nil_r.
    destruct (existsb is_emptyStateDiv (messagesDiv st)); [|reflexivity].
    destruct (nth_error example_questions n) as [text|]; [|reflexivity].
    destruct (sendMessage_history (updateSendState (set_queryInput text st))) as [-> _].
    reflexivity.
  - exists []. rewrite app_nil_r. apply resetConversation_fields.
  - destruct (nth_error (outstanding st) i) as [q|];
      [|exists []; now rewrite app_nil_r].
    destruct (settle_fields q r t (set_outstanding (remove_nth i) st))
      as (_ & _ & [[Hc _]|(a & s & _ & Hc & _)]).
    + exists []. now rewrite app_nil_r.
    + eexists. exact Hc.
  - exists []. rewrite app_nil_r. unfold clickCitation.
    destruct (nth_error (messagesDiv st) m) as [[|?|html buttons]|]; try reflexivity.
    destruct (nth_error buttons b) as [[a [src|]]|]; reflexivity.
Qed.

(** Once the history panel shows the exchanges of [chatHistory], it does
    so after every event. *)
Lemma step_history_in_sync st e : history_in_sync st -> history_in_sync (step_ st e).
Proof.
  unfold history_in_sync. rewrite !historyList_renderHistory. intros Hst.
  destruct e as [text| |n| |i r t|m b]; cbn [step].
  - exact Hst.
  - destruct (sendMessage_history st) as [-> ->]. exact Hst.
  - destruct (existsb is_emptyStateDiv (messagesDiv st)); [|exact Hst].
    destruct (nth_error example_questions n) as [text|]; [|exact Hst].
    destruct (sendMessage_history (updateSendState (set_queryInput text st))) as [-> ->].
    exact Hst.
  - destruct (resetConversation_fields st) as (-> & -> & _). reflexivity.
  - destruct (nth_error (outstanding st) i) as [q|]; [|exact Hst].
    destruct (settle_fields q r t (set_outstanding (remove_nth i) st))
      as (_ & _ & [[-> ->]|(a & s & _ & _ & Hsync)]).
    + exact Hst.
    + unfold history_in_sync in Hsync. now rewrite historyList_renderHistory in Hsync.
  - unfold clickCitation.
    destruct (nth_error (messagesDiv st) m) as [[|?|html buttons]|]; try exact Hst.
    destruct (nth_error buttons b) as [[a [src|]]|]; exact Hst.
Qed.

(** C3, amended. When the trimmed input is empty, and when the in-flight
    flag is set, [sendMessage] returns the page as it is: no bubble, no
    change of the input or of the conversation, no request. Hence, along
    any events among which the conversation is reset only while no
    request is outstanding, at most one request is outstanding at a time
    and the flag is set while it is. *)
Theorem sendMessage_gate (st : state) (es : list event) :
  (trim (queryInput st) = [] \/ isThinking st = true -> sendMessage st = st)
  /\ (at_most_one st ->
      resets_when_idle marked_parse citationLinks st es = true ->
      at_most_one (run_ st es)).
Proof.
  split; [apply sendMessage_noop|]. intros Hst Hes. now apply run_at_most_one.
Qed.

Lemma or_else_falsy a d : truthy a = false -> or_else a d = d.
Proof. unfold or_else. now intros ->. Qed.

(** C7, amended. A [data.answer] that is absent, null or falsy in another
    way is processed as the empty string, and a [data.sources] that is
    absent, null or falsy is processed as the empty array: the page after
    the response is the same. With both, the bubble holds the rendering
    of the empty text, the exchange is recorded with the empty string and
    the empty array, and the source panel shows its placeholder. *)
Theorem falsy_fields_default (q : jsstring) (a s : value) (t : jsstring) (st : state) :
  (truthy a = false ->
   settle q (JsonBody a s) t st = settle q (JsonBody (VStr []) s) t st)
  /\ (truthy s = false ->
      settle q (JsonBody a s) t st = settle q (JsonBody a (VArray [])) t st)
  /\ (truthy a = false -> truthy s = false ->
      let st' := settle q (JsonBody a s) t st in
      messagesDiv st'
      = messagesDiv (hideEmptyState st)
        ++ [BotMsg (marked_parse []) (map unwired (citationLinks (marked_parse [])))]
      /\ chatHistory st' = chatHistory st ++ [mkExchange q (VStr []) (VArray []) t]
      /\ sourcesList st' = [SourcesPlaceholder (lit "No sources yet.")]
      /\ isThinking st' = false).
Proof.
  split; [|split].
  - intros Ha. unfold sendMessage_settle, tryBlock, bind, await_json, of_result, ret.
    cbn [fst snd]. now rewrite (or_else_falsy a (VStr []) Ha).
  - intros Hs. unfold sendMessage_settle, tryBlock, bind, await_json, of_result, ret.
    cbn [fst snd]. now rewrite (or_else_falsy s (VArray []) Hs).
  - intros Ha Hs. cbv zeta.
    unfold sendMessage_settle, tryBlock, bind, await_json, of_result, ret, effect.
    cbn [fst snd].
    rewrite (or_else_falsy a (VStr []) Ha), (or_else_falsy s (VArray []) Hs).
    cbn.
    set (st2 := set_chatHistory _ _).
    destruct (renderHistory_fields st2) as (-> & -> & _).
    subst st2. cbn. repeat split.
    destruct (hideEmptyState_fields st) as (_ & _ & _ & _ & _ & _ & -> & _). reflexivity.
Qed.

End Gate.

(** C3, as stated, fails: a reset while the first request is outstanding
    clears the in-flight flag, and the next [sendMessage] issues a second
    request before the first has settled. *)
Lemma reset_in_flight_second_request :
  let st := run plain_marked no_links initial
                [TypeText (lit "a"); Submit; NewConversation; TypeText (lit "b"); Submit] in
  outstanding st = [lit "a"; lit "b"] /\ ~ List.length (outstanding st) <= 1.
Proof.
  cbv zeta. split; [vm_compute; reflexivity|].
  intros H. vm_compute in H. lia.
Qed.

Lemma sendMessage_gate_witness :
  let waiting := run plain_marked no_links initial [TypeText (lit "a"); Submit] in
  sendMessage (set_queryInput (lit "b") waiting) = set_queryInput (lit "b") waiting
  /\ at_most_one (run plain_marked no_links initial
                      [TypeText (lit "a"); Submit; TypeText (lit "b"); Submit;
                       Settle 0 NetworkError (lit "10:00"); NewConversation;
                       TypeText (lit "c"); Submit]).
Proof.
  cbv zeta. split.
  - apply (sendMessage_gate plain_marked no_links
             (set_queryInput (lit "b")
                (run plain_marked no_links initial [TypeText (lit "a"); Submit])) []).
    right. reflexivity.
  - apply (sendMessage_gate plain_marked no_links initial
             [TypeText (lit "a"); Submit; TypeText (lit "b"); Submit;
              Settle 0 NetworkError (lit "10:00"); NewConversation;
              TypeText (lit "c"); Submit]).
    + split; [cbn; lia|intros H; now contradiction H].
    + vm_compute. reflexivity.
Defined.

(** C7, as stated, fails: a [sources] field that is malformed but truthy,
    here the string "x", is not processed as the empty array. With the
    answer "hi" the annotation step throws on it, so the page gets the
    error bubble and no exchange, where the empty array gives the answer
    bubble and one exchange. *)
Lemma malformed_sources_not_empty :
  let st := run plain_marked no_links initial [TypeText (lit "q"); Submit] in
  let bad := sendMessage_settle plain_marked no_links (lit "q")
               (JsonBody (VStr (lit "hi")) (VStr (lit "x"))) (lit "10:00") st in
  let good := sendMessage_settle plain_marked no_links (lit "q")
                (JsonBody (VStr (lit "hi")) (VArray [])) (lit "10:00") st in
  messagesDiv bad = [UserMsg (lit "q"); BotMsg errorHtml []]
  /\ chatHistory bad = []
  /\ messagesDiv good = [UserMsg (lit "q"); BotMsg (lit "hi") []]
  /\ chatHistory good = [mkExchange (lit "q") (VStr (lit "hi")) (VArray []) (lit "10:00")]
  /\ bad <> good.
Proof.
  cbv zeta. repeat apply conj; try (vm_compute; reflexivity).
  intros H. apply (f_equal chatHistory) in H. vm_compute in H. discriminate.
Qed.

Lemma falsy_fields_default_witness :
  let st := run plain_marked no_links initial [TypeText (lit "q"); Submit] in
  sendMessage_settle plain_marked no_links (lit "q")
    (JsonBody VUndefined VNull) (lit "10:00") st
  = sendMessage_settle plain_marked no_links (lit "q")
      (JsonBody (VStr []) VNull) (lit "10:00") st
  /\ sendMessage_settle plain_marked no_links (lit "q")
       (JsonBody VUndefined VNull) (lit "10:00") st
     = sendMessage_settle plain_marked no_links (lit "q")
         (JsonBody VUndefined (VArray [])) (lit "10:00") st.
Proof.
  cbv zeta. split.
  - apply (falsy_fields_default plain_marked no_links (lit "q") VUndefined VNull
             (lit "10:00")). reflexivity.
  - apply (falsy_fields_default plain_marked no_links (lit "q") VUndefined VNull
             (lit "10:00")). reflexivity.
Defined.

(* ===================================================================== *)
(** ** More on the pattern and the replacement *)
(* ===================================================================== *)

(** X1. Escaping is exact: the constructor reads the escaped text of any
    string as a pattern, and that pattern matches at the head of a text
    exactly when the text starts with the string itself, character for
    character, and the match ends right after it. *)
Theorem escapeRegExp_matches_itself (str s : jsstring) :
  exists r,
    parse (escapeRegExp str) = Some r
    /\ forall rest, match_at r s = Some rest <-> s = str ++ rest.
Proof.
  exists (map lit_node str). split.
  - unfold parse. rewrite <- (app_nil_r (escapeRegExp str)), tokenize_escaped.
    cbn [tokenize option_map]. rewrite parse_tokens_literal. cbn [parse_tokens].
    now rewrite app_nil_r, rev_involutive.
  - assert (forall rest, nodes_match (map lit_node str) s rest <-> s = str ++ rest) as H.
    { intros rest. rewrite <- (app_nil_r (map lit_node str)), nodes_match_literal.
      cbn [nodes_match]. split.
      - now intros (s' & -> & ->).
      - intros ->. eauto. }
    intros rest. split.
    + intros Hm. apply H. now apply match_at_sound.
    + intros Hs. destruct (match_at_complete (map lit_node str) s rest) as [rest' Hm].
      { now apply H. }
      pose proof (match_at_sound _ _ _ Hm) as Hs'. apply H in Hs'.
      rewrite Hs in Hs'. apply app_inv_head in Hs'. now subst.
Qed.

Lemma spaces_prefix w2 : forall w x y,
  spaces w2 -> spaces w ->
  w2 ++ x = w ++ ch "[" :: y ->
  exists w', w = w2 ++ w' /\ x = w' ++ ch "[" :: y.
Proof.
  unfold spaces. induction w2 as [|a w2 IH]; intros w x y H2 Hw E.
  - exists w. auto.
  - cbn in H2. apply andb_prop in H2 as [Ha H2]. destruct w as [|b w].
    + cbn in E. injection E as -> _. discriminate.
    + cbn in E, Hw. injection E as -> E. apply andb_prop in Hw as [_ Hw].
      destruct (IH w x y H2 Hw E) as (w' & -> & ->). exists w'. auto.
Qed.

(** X5. The guard: where the citation stands at the head of the text and
    is followed by optional white space and a bracketed number, the
    pattern finds no match there, for every citation whose first
    character is neither "(" nor white space. *)
Theorem guard_skips_bare_index (x : jschar) (c w ds tail : jsstring) :
  x <> ch "(" -> is_space x = false ->
  spaces w -> ds <> [] -> digits ds ->
  match_at (citation_regex (x :: c))
           ((x :: c) ++ w ++ [ch "["] ++ ds ++ [ch "]"] ++ tail) = None.
Proof.
  intros Hx Hsp Hw Hne Hds.
  destruct (match_at _ _) as [rest|] eqn:E; [exfalso|reflexivity].
  apply match_at_sound, citation_regex_match in E.
  destruct E as (lp & w1 & w2 & rp & E & Hlp & Hw1 & Hw2 & Hrp & Hg).
  destruct Hlp as [-> | ->]; [|cbn in E; injection E as E _; exact (Hx E)].
  destruct w1 as [|a w1].
  2:{ cbn in E. injection E as <- _. unfold spaces in Hw1. cbn in Hw1.
      rewrite Hsp in Hw1. discriminate. }
  cbn [app] in E. injection E as E. apply app_inv_head in E. symmetry in E.
  destruct (spaces_prefix w2 w (rp ++ rest) (ds ++ [ch "]"] ++ tail) Hw2 Hw E)
    as (w' & -> & E').
  assert (spaces w') as Hw'.
  { unfold spaces in *. rewrite forallb_app in Hw. now apply andb_prop in Hw as [_ ?]. }
  destruct Hrp as [-> | ->].
  - apply Hg. exists w', ds, tail. cbn in E'. rewrite E'. auto.
  - destruct w' as [|b w']; cbn in E'; injection E' as Hb _; [discriminate|].
    subst b. unfold spaces in Hw'. cbn in Hw'. discriminate.
Qed.

Lemma guard_skips_bare_index_witness :
  match_at (citation_regex (lit "X")) (lit "X" ++ lit " " ++ [ch "["] ++ lit "12"
                                       ++ [ch "]"] ++ lit " and") = None.
Proof.
  apply (guard_skips_bare_index (ch "X") [] (lit " ") (lit "12") (lit " and"));
    try reflexivity; discriminate.
Defined.

(** X6. The guard does not reach past a closing parenthesis: a citation
    in parentheses is matched whatever comes after the closing
    parenthesis, a bracketed index included. *)
Theorem parenthesised_citation_is_matched (c tail : jsstring) :
  exists rest,
    match_at (citation_regex c) ([ch "("] ++ c ++ [ch ")"] ++ tail) = Some rest.
Proof.
  apply (match_at_complete (citation_regex c) _ ([ch ")"] ++ tail)).
  apply citation_regex_match. exists [ch "("], [], [], [].
  repeat split; try (now left); try (now right); try reflexivity.
  intros (w & ds & t & E & Hw & _). destruct w as [|a w]; cbn in E.
  - discriminate.
  - injection E as <- _. unfold spaces in Hw. cbn in Hw. discriminate.
Qed.

Lemma citeSource_string index s t :
  exists t', citeSource index s (VStr t) = Ok (VStr t').
Proof.
  unfold citeSource, replaceCitation.
  destruct (citationOf s) as [[|c cs]|]; eauto.
  rewrite citationPattern_regex. eauto.
Qed.

Lemma forEachSource_string l : forall index t,
  exists t', forEachSource index l (VStr t) = Ok (VStr t').
Proof.
  induction l as [|s l IH]; intros index t; cbn [forEachSource]; [eauto|].
  destruct (citeSource_string index s t) as [t1 ->]. apply IH.
Qed.

(** X2. On a string answer and an array of sources the annotation step
    never throws and returns a string: the constructor accepts the
    pattern of every citation, whatever characters the citation holds. *)
Theorem applyInlineCitations_returns_string (t : jsstring) (l : list Source) :
  exists t', applyInlineCitations (VStr t) (VArray l) = Ok (VStr t').
Proof.
  unfold applyInlineCitations.
  destruct (negb (truthy (VStr t)) || negb (truthy (VArray l)) || _); [eauto|].
  apply forEachSource_string.
Qed.

Lemma forEachSource_not_string l : forall index a,
  (forall t, a <> VStr t) ->
  forEachSource index l a
  = if existsb (fun s => present (citationOf s)) l then Throw else Ok a.
Proof.
  induction l as [|s l IH]; intros index a Ha; cbn [forEachSource existsb]; [reflexivity|].
  unfold citeSource, present at 1.
  destruct (citationOf s) as [[|c cs]|]; cbn [orb nonempty]; try now apply IH.
  destruct a; try reflexivity. now contradiction (Ha s0).
Qed.

(** X3. Over answers and sources that are [undefined], [null], a
    boolean, an integer, a string, an array of Source records or an
    object without index properties, the annotation step throws exactly
    when the answer is truthy, [sources] is truthy, [sources.length] is
    not the number 0, and either [sources] is no array ([forEach] is
    missing) or the answer is no string while a source of the array has
    a citation ([replace] is missing). An object whose [length] is 0 is
    returned from like the empty array, and an empty or absent answer is
    returned before [sources] is looked at. *)
Theorem applyInlineCitations_throws (a s : value) :
  applyInlineCitations a s = Throw
  <-> truthy a = true
      /\ truthy s = true
      /\ is_zero (length_of s) = false
      /\ match s with
         | VArray l =>
           (forall t, a <> VStr t)
           /\ exists src, In src l /\ present (citationOf src) = true
         | _ => True
         end.
Proof.
  unfold applyInlineCitations. destruct (truthy a) eqn:Ha; cbn [negb orb].
  2:{ split; [discriminate|]. now intros [? _]. }
  destruct (truthy s) eqn:Hs; cbn [negb orb].
  2:{ split; [discriminate|]. now intros (_ & ? & _). }
  destruct (is_zero (length_of s)) eqn:Hz.
  { split; [discriminate|]. now intros (_ & _ & ? & _). }
  destruct s as [| |b|z|str|l|len]; try discriminate Hs; try solve [split; auto].
  destruct (match a with VStr _ => true | _ => false end) eqn:Ea.
  - destruct a as [| |b|z|t| |]; try discriminate Ea.
    destruct (forEachSource_string l 0 t) as [t' ->].
    split; [discriminate|]. intros (_ & _ & _ & Hn & _). now contradiction (Hn t).
  - assert (forall t, a <> VStr t) as Hn by (intros t ->; discriminate Ea).
    rewrite (forEachSource_not_string l 0 a Hn).
    destruct (existsb _ l) eqn:E.
    + split; [intros _|reflexivity]. repeat split; [exact Hn|].
      apply existsb_exists in E. exact E.
    + split; [discriminate|]. intros (_ & _ & _ & _ & x & Hx & Hp).
      assert (existsb (fun s => present (citationOf s)) l = true)
        by (apply existsb_exists; eauto).
      congruence.
Qed.

Lemma applyInlineCitations_throws_witness :
  applyInlineCitations (VStr (lit "hi")) (VObject (VNum 0)) = Ok (VStr (lit "hi"))
  /\ applyInlineCitations (VStr (lit "hi")) (VObject VUndefined) = Throw
  /\ applyInlineCitations (VNum 5) (VArray [cited "X"]) = Throw.
Proof.
  split; [reflexivity|]. split.
  - apply (applyInlineCitations_throws (VStr (lit "hi")) (VObject VUndefined)).
    repeat split.
  - apply (applyInlineCitations_throws (VNum 5) (VArray [cited "X"])).
    repeat split; try discriminate. exists (cited "X"). split; [now left|reflexivity].
Defined.

Lemma replace_from_no_match r repl s : forall pre,
  no_match_from r s -> replace_from r repl pre 0 s = s.
Proof.
  induction s as [|c s IH]; intros pre H; cbn [replace_from].
  - pose proof (H 0) as H0. cbn [skipn] in H0. now rewrite H0.
  - pose proof (H 0) as H0. cbn [skipn] in H0. rewrite H0. f_equal.
    apply IH. intros k. exact (H (S k)).
Qed.

(** X4. An answer in which the pattern of no source finds a match, from
    no position, comes back from the annotation step as it is. *)
Theorem annotation_without_occurrence (t : jsstring) (l : list Source) :
  Forall (fun s => forall c, citationOf s = Some c ->
                             no_match_from (citation_regex c) t) l ->
  applyInlineCitations (VStr t) (VArray l) = Ok (VStr t).
Proof.
  intros H. unfold applyInlineCitations.
  destruct (negb (truthy (VStr t)) || negb (truthy (VArray l)) || _); [reflexivity|].
  generalize 0 as index. induction H as [|s l Hs Hl IH]; intros index; [reflexivity|].
  cbn [forEachSource]. unfold citeSource, replaceCitation.
  destruct (citationOf s) as [[|c cs]|] eqn:E; try apply IH.
  rewrite citationPattern_regex. unfold replace_all.
  rewrite (replace_from_no_match _ _ t [] (Hs _ eq_refl)). apply IH.
Qed.

Lemma annotation_without_occurrence_witness :
  applyInlineCitations (VStr (lit "see abc")) (VArray [cited "ABC"])
  = Ok (VStr (lit "see abc")).
Proof.
  apply annotation_without_occurrence. constructor; [|constructor].
  intros c [= <-] k.
  do 8 (destruct k as [|k]; [vm_compute; reflexivity|]).
  cbn [skipn lit map list_ascii_of_string]. destruct k; vm_compute; reflexivity.
Defined.

(* ===================================================================== *)
(** ** Indices: written, parsed and wired *)
(* ===================================================================== *)

Lemma lit_uint_digits d : forallb is_digit (lit (NilEmpty.string_of_uint d)) = true.
Proof. induction d; cbn [NilEmpty.string_of_uint]; try reflexivity; exact IHd. Qed.

Lemma of_nat_digits n : forallb is_digit (of_nat n) = true /\ of_nat n <> [].
Proof.
  unfold of_nat, NilZero.string_of_uint.
  destruct (Nat.to_uint n) eqn:E; (split; [|discriminate]);
    try reflexivity; rewrite <- E at 1; cbn [NilEmpty.string_of_uint];
    try exact (lit_uint_digits (Nat.to_uint n));
    rewrite E; exact (lit_uint_digits _).
Qed.

Lemma digit_facts c :
  is_digit c = true ->
  is_space c = false /\ N.eqb c (ch "-") = false /\ N.eqb c (ch "+") = false
  /\ N.eqb c (ch "$") = false.
Proof.
  unfold is_digit. intros H. apply andb_prop in H as [H1 H2].
  apply N.leb_le in H1, H2. unfold is_space, mem. cbn [existsb].
  repeat match goal with
         | |- context [N.eqb c ?k] =>
           let E := fresh in destruct (N.eqb_spec c k) as [E|E]; [cbv in E; lia|]
         end.
  cbn [orb]. destruct (N.leb_spec 8192 c) as [Hle|Hlt]; [exfalso; clear - H2 Hle; lia|].
  auto.
Qed.

Lemma takeWhile_all p s : forallb p s = true -> takeWhile p s = s.
Proof.
  induction s as [|c s IH]; cbn; [reflexivity|]. intros H.
  apply andb_prop in H as [-> H]. now rewrite IH.
Qed.

Lemma fold_digits d : forall a : nat,
  fold_left (fun acc c => (10 * acc + digit_value c)%Z)
            (lit (NilEmpty.string_of_uint d)) (Z.of_nat a)
  = Z.of_nat (Nat.of_uint_acc d a).
Proof.
  induction d; intros a; cbn [NilEmpty.string_of_uint Nat.of_uint_acc]; [reflexivity|..];
    rewrite Nat.tail_mul_spec, <- IHd; cbn [lit list_ascii_of_string map fold_left];
    f_equal; unfold digit_value;
    match goal with
    | |- context [Z.of_N (ch ?a)] =>
      let v := eval vm_compute in (Z.of_N (ch a)) in change (Z.of_N (ch a)) with v
    end; lia.
Qed.

(** The index that the annotation step writes into a marker parses back
    to itself. *)
Lemma parseInt_of_nat n : parseInt (Some (of_nat n)) = Some (Z.of_nat n).
Proof.
  destruct (of_nat_digits n) as [Hd Hne].
  unfold parseInt. destruct (of_nat n) as [|c s] eqn:E; [contradiction|].
  pose proof Hd as Hd'. cbn in Hd'. apply andb_prop in Hd' as [Hc _].
  destruct (digit_facts c Hc) as (Hsp & Hm & Hp & _).
  cbn [dropWhile]. rewrite Hsp, Hm, Hp, (takeWhile_all is_digit (c :: s) Hd).
  rewrite <- E. f_equal. rewrite Z.mul_1_l.
  rewrite <- (DecimalNat.Unsigned.of_to n) at 2.
  unfold of_nat, NilZero.string_of_uint, Nat.of_uint.
  destruct (Nat.to_uint n); try exact (fold_digits _ 0). reflexivity.
Qed.

Lemma not_in_app {A} (x : A) l1 l2 : ~ In x l1 -> ~ In x l2 -> ~ In x (l1 ++ l2).
Proof. intros H1 H2 H. apply in_app_or in H as [H|H]; auto. Qed.

Lemma digits_no_dollar s : forallb is_digit s = true -> ~ In (ch "$") s.
Proof.
  intros H Hin. rewrite forallb_forall in H. specialize (H _ Hin).
  destruct (digit_facts _ H) as (_ & _ & _ & E). discriminate.
Qed.

Lemma marker_no_dollar index : ~ In (ch "$") (marker index).
Proof.
  unfold marker, attr, dq. rewrite <- !app_assoc.
  repeat (apply not_in_app;
          [first [ apply digits_no_dollar; exact (proj1 (of_nat_digits _))
                 | cbv; intuition discriminate ]|]).
  cbv; intuition discriminate.
Qed.

Lemma substitution_literal repl : forall matched pre post,
  ~ In (ch "$") repl -> substitution repl matched pre post = repl.
Proof.
  induction repl as [|c t IH]; intros matched pre post H; [reflexivity|].
  cbn [substitution]. destruct (N.eqb_spec c (ch "$")) as [->|_].
  - exfalso. apply H. now left.
  - f_equal. apply IH. intros Hin. apply H. now right.
Qed.

(** X7. For a citation without a "$", what is written in place of each
    match is the citation, a space and the marker, whatever was matched
    and whatever stands around it; surrounding parentheses and white
    space that the match took in are not written back. *)
Theorem written_text_is_literal (c : jsstring) (index : nat) (matched pre post : jsstring) :
  ~ In (ch "$") c ->
  substitution (c ++ lit " " ++ marker index) matched pre post
  = c ++ lit " " ++ marker index.
Proof.
  intros Hc. apply substitution_literal.
  apply not_in_app; [exact Hc|]. apply not_in_app; [|apply marker_no_dollar].
  cbv. intuition discriminate.
Qed.

Lemma written_text_is_literal_witness :
  substitution (lit "X" ++ lit " " ++ marker 2) (lit "( X )") (lit "see ") (lit ".")
  = lit "X" ++ lit " " ++ marker 2.
Proof.
  apply written_text_is_literal. cbv. intuition discriminate.
Defined.

(** A citation with a "$" in it is read as a replacement pattern: "$$"
    is written back as one "$", and "$&" as the text that was matched. *)
Example dollar_citations :
  applyInlineCitations (VStr (lit "cost A$$B.")) (VArray [cited "A$$B"])
  = Ok (VStr (lit "costA$B " ++ marker 0 ++ lit "."))
  /\ applyInlineCitations (VStr (lit "see ($&)")) (VArray [cited "$&"])
     = Ok (VStr (lit "see ($&) " ++ marker 0)).
Proof. split; vm_compute; reflexivity. Qed.

Section Wiring.
Variable citationLinks : jsstring -> list (option jsstring).

(** X14. Writing and wiring agree: when the browser finds in the rendered
    answer a citation button that carries the index the annotation step
    writes for position [i], [addBotMessage] wires it to the source at
    position [i] of the list of this message, and a click on it shows
    that source in the modal. *)
Theorem marker_opens_its_source
        (html : jsstring) (l : list Source) (st : state) (b i : nat) (src : Source) :
  nth_error (citationLinks html) b = Some (Some (of_nat i)) ->
  nth_error l i = Some src ->
  let st' := addBotMessage citationLinks html (VArray l) st in
  let m := List.length (messagesDiv st') - 1 in
  sourceModal (clickCitation m b st') = Some (modalOf src).
Proof.
  intros Hb Hi. cbv zeta. unfold addBotMessage, clickCitation.
  cbn [messagesDiv set_messagesDiv]. rewrite nth_error_last.
  assert (has_sources (VArray l) = true) as ->.
  { destruct l; [destruct i; discriminate|reflexivity]. }
  rewrite nth_error_map, Hb. cbn [option_map]. unfold wire.
  rewrite parseInt_of_nat. unfold element_at.
  destruct (Z.ltb_spec (Z.of_nat i) 0); [lia|].
  rewrite Nat2Z.id, Hi. reflexivity.
Qed.

End Wiring.

Lemma marker_opens_its_source_witness :
  let l := [cited "A"; cited "B"] in
  let st' := addBotMessage (links_of [Some (of_nat 0); Some (of_nat 1)])
                           (lit "<p>A, B</p>") (VArray l) initial in
  sourceModal (clickCitation (List.length (messagesDiv st') - 1) 1 st')
  = Some (modalOf (cited "B")).
Proof.
  cbv zeta.
  apply (marker_opens_its_source (links_of [Some (of_nat 0); Some (of_nat 1)])
           (lit "<p>A, B</p>") [cited "A"; cited "B"] initial 1 1 (cited "B"));
    reflexivity.
Defined.

(* ===================================================================== *)
(** ** The source panel *)
(* ===================================================================== *)

Lemma forEachCard_length l : forall index,
  List.length (forEachCard index l) = List.length l.
Proof. induction l as [|x l IH]; intros index; cbn; [reflexivity|now rewrite IH]. Qed.

Lemma forEachCard_nth l : forall index i s,
  nth_error l i = Some s ->
  nth_error (forEachCard index l) i = Some (SourceCard (sourceCard (index + i) s)).
Proof.
  induction l as [|x l IH]; intros index i s H.
  - destruct i; discriminate.
  - destruct i as [|i]; cbn in *.
    + injection H as ->. now rewrite Nat.add_0_r.
    + rewrite (IH (S index) i s H). now rewrite Nat.add_succ_r.
Qed.

(** X13. [renderSources] on an array with sources shows one card for each
    source, in the order of the array, and the card at position [i]
    carries the badge with [i + 1], the number of the markers of that
    source; it does not throw. On a falsy value, and on a value whose
    [length] is the number 0 (the empty array, or an object with such a
    property), the panel shows its placeholder. On any other value that
    is not an array the panel is left empty and the call throws. *)
Theorem renderSources_cards (v : value) (st : state) :
  (forall l i s, v = VArray l -> nth_error l i = Some s ->
     snd (renderSources v st) = Ok tt
     /\ List.length (sourcesList (fst (renderSources v st))) = List.length l
     /\ nth_error (sourcesList (fst (renderSources v st))) i
        = Some (SourceCard (sourceCard i s))
     /\ card_badge (sourceCard i s) = lit "[" ++ of_nat (i + 1) ++ lit "]")
  /\ (truthy v = false \/ is_zero (length_of v) = true ->
      renderSources v st
      = (set_sourcesList [SourcesPlaceholder (lit "No sources yet.")] st, Ok tt))
  /\ (truthy v = true -> is_zero (length_of v) = false -> (forall l, v <> VArray l) ->
      renderSources v st = (set_sourcesList [] st, Throw)).
Proof.
  split; [|split].
  - intros l i s -> Hi. unfold renderSources.
    destruct l as [|x l]; [destruct i; discriminate|].
    cbn [truthy negb orb length_of is_zero List.length fst snd sourcesList set_sourcesList].
    change (Z.of_nat (S (List.length l)) =? 0)%Z with false. cbn [fst snd sourcesList
      set_sourcesList].
    split; [reflexivity|]. split; [apply (forEachCard_length (x :: l))|].
    split; [apply (forEachCard_nth (x :: l) 0 i s Hi)|reflexivity].
  - intros [H|H]; unfold renderSources; rewrite H; [reflexivity|].
    now rewrite orb_true_r.
  - intros Ht Hz Hn. unfold renderSources. rewrite Ht, Hz. cbn [negb orb].
    destruct v as [| |b|z|str|l|len]; try reflexivity. now contradiction (Hn l).
Qed.

Lemma renderSources_cards_witness :
  let l := [cited "A"; cited "B"] in
  snd (renderSources (VArray l) initial) = Ok tt
  /\ List.length (sourcesList (fst (renderSources (VArray l) initial))) = List.length l
  /\ nth_error (sourcesList (fst (renderSources (VArray l) initial))) 1
     = Some (SourceCard (sourceCard 1 (cited "B")))
  /\ card_badge (sourceCard 1 (cited "B")) = lit "[" ++ of_nat (1 + 1) ++ lit "]".
Proof.
  cbv zeta.
  apply (renderSources_cards (VArray [cited "A"; cited "B"]) initial); reflexivity.
Defined.

(** An object with the property [length] set to 0 gets the placeholder,
    any other object makes [forEach] throw. *)
Example renderSources_objects :
  sourcesList (fst (renderSources (VObject (VNum 0)) initial))
  = [SourcesPlaceholder (lit "No sources yet.")]
  /\ renderSources (VObject VUndefined) initial = (set_sourcesList [] initial, Throw).
Proof. split; reflexivity. Qed.

(* ===================================================================== *)
(** ** Blank input and user bubbles *)
(* ===================================================================== *)

Lemma dropWhile_nil p s : dropWhile p s = [] <-> forallb p s = true.
Proof.
  induction s as [|c s IH]; cbn; [tauto|].
  destruct (p c); cbn; [exact IH|]. split; discriminate.
Qed.

Lemma dropWhile_head p s c d : dropWhile p s = c :: d -> p c = false.
Proof.
  induction s as [|x s IH]; cbn; [discriminate|].
  destruct (p x) eqn:E; [exact IH|]. now intros [= <- _].
Qed.

(** [trim] gives the empty string exactly on the texts of white space. *)
Lemma trim_nil s : trim s = [] <-> blank s = true.
Proof.
  unfold trim, blank. split.
  - intros H. apply (f_equal (@rev jschar)) in H. rewrite rev_involutive in H.
    cbn in H. apply dropWhile_nil in H.
    destruct (dropWhile is_space s) as [|c d] eqn:E; [now apply dropWhile_nil|].
    apply dropWhile_head in E. rewrite forallb_forall in H.
    rewrite (H c) in E; [discriminate|]. apply in_rev. rewrite rev_involutive. now left.
  - intros H. apply dropWhile_nil in H. now rewrite H.
Qed.

Lemma trim_blank s : Nat.eqb (List.length (trim s)) 0 = blank s.
Proof.
  destruct (blank s) eqn:E.
  - apply trim_nil in E. now rewrite E.
  - destruct (trim s) eqn:T; [|reflexivity]. apply trim_nil in T. congruence.
Qed.

(** X8. The user bubble holds the text with every line feed replaced by
    the four characters of a line-break tag, and every other character as
    it was typed: no character of the query is escaped. *)
Theorem br_replaces_line_feeds (text : jsstring) :
  br text = flat_map newline_to_br text.
Proof.
  unfold br, replace_all. generalize (@nil jschar) as pre.
  induction text as [|c s IH]; intros pre; [reflexivity|].
  cbn [replace_from flat_map]. unfold match_at. cbn [m_nodes m_item cset_mem].
  unfold newline_to_br at 1. destruct (N.eqb c 10).
  - replace (List.length (c :: s) - List.length s) with 1
      by (cbn [List.length]; lia).
    rewrite IH. reflexivity.
  - now rewrite IH.
Qed.

(* ===================================================================== *)
(** ** Sending, once more *)
(* ===================================================================== *)

Lemma nonblank_trim s : blank s = false -> trim s <> [].
Proof. intros Hb E. apply trim_nil in E. congruence. Qed.

(** The parts of the page that an accepted send sets besides those of
    [sendMessage_sends]. *)
Lemma sendMessage_sets st :
  trim (queryInput st) <> [] -> isThinking st = false ->
  emptyState (sendMessage st) = false
  /\ loading (sendMessage st) = true
  /\ sendBtn_disabled (sendMessage st) = true
  /\ sourcesList (sendMessage st) = sourcesList st.
Proof.
  intros Hq Ht. unfold sendMessage. rewrite Ht.
  destruct (trim (queryInput st)) as [|c q] eqn:E; [contradiction|].
  cbn [nonempty negb orb].
  unfold addUserMessage, setThinking, updateSendState, hideEmptyState.
  destruct st as [ms es ld qi sd hl sl chh th sm out]. cbn. destruct es; cbn; auto.
Qed.

(** X9. A send that is accepted (the input is not blank and no request is
    in flight) does, before any response: the placeholder goes, one user
    bubble with the trimmed query is appended, the input is emptied, the
    flag and the loader are set, the send button is disabled, and one
    request for the trimmed query is issued. History and sources stay. *)
Theorem sendMessage_accepts (st : state) :
  blank (queryInput st) = false ->
  isThinking st = false ->
  let st' := sendMessage st in
  messagesDiv st' = messagesDiv (hideEmptyState st) ++ [UserMsg (br (trim (queryInput st)))]
  /\ emptyState st' = false
  /\ queryInput st' = []
  /\ isThinking st' = true
  /\ loading st' = true
  /\ sendBtn_disabled st' = true
  /\ outstanding st' = outstanding st ++ [trim (queryInput st)]
  /\ chatHistory st' = chatHistory st
  /\ historyList st' = historyList st
  /\ sourcesList st' = sourcesList st.
Proof.
  intros Hb Ht. cbv zeta. pose proof (nonblank_trim _ Hb) as Hq.
  destruct (sendMessage_sends st Hq Ht) as (Ho & Hth & Hi & Hm & Hc & Hh).
  destruct (sendMessage_sets st Hq Ht) as (He & Hl & Hd & Hs).
  rewrite Ho, Hth, Hi, Hm, Hc, Hh, He, Hl, Hd, Hs. repeat split.
Qed.

Lemma sendMessage_accepts_witness :
  let st := set_queryInput (lit "  What is delict?  ") initial in
  messagesDiv (sendMessage st) = [UserMsg (lit "What is delict?")]
  /\ outstanding (sendMessage st) = [lit "What is delict?"]
  /\ sendBtn_disabled (sendMessage st) = true.
Proof.
  cbv zeta.
  pose proof (sendMessage_accepts (set_queryInput (lit "  What is delict?  ") initial)
                eq_refl eq_refl) as H.
  cbv zeta in H. destruct H as (Hm & _ & _ & _ & _ & Hd & Ho & _).
  split; [exact Hm|]. split; [exact Ho|exact Hd].
Defined.

(** X10. [sendMessage] leaves the page as it is exactly when the input is
    blank or the in-flight flag [isThinking] is set. The flag, not the
    network, decides: after a reset the flag is clear while the request
    may still be outstanding. *)
Theorem sendMessage_noop_iff (st : state) :
  sendMessage st = st <-> blank (queryInput st) = true \/ isThinking st = true.
Proof.
  split.
  - intros H. destruct (blank (queryInput st)) eqn:Hb; [now left|].
    destruct (isThinking st) eqn:Ht; [now right|].
    destruct (sendMessage_sends st (nonblank_trim _ Hb) Ht) as (_ & Hth & _).
    rewrite H in Hth. congruence.
  - intros [Hb|Ht]; apply sendMessage_noop; [left; now apply trim_nil|now right].
Qed.

(** X11. Sending twice in a row sends once: whatever the page, a second
    [sendMessage] right after the first changes nothing. *)
Theorem sendMessage_twice (st : state) :
  sendMessage (sendMessage st) = sendMessage st.
Proof.
  destruct (blank (queryInput st)) eqn:Hb.
  { apply trim_nil in Hb. rewrite (sendMessage_noop st) by auto.
    apply sendMessage_noop. auto. }
  destruct (isThinking st) eqn:Ht.
  { rewrite (sendMessage_noop st) by auto. apply sendMessage_noop. auto. }
  destruct (sendMessage_sends st (nonblank_trim _ Hb) Ht) as (_ & Hth & _).
  apply sendMessage_noop. now right.
Qed.

(** X20. The earlier copy of the script has no such gate: every text that
    is not blank is sent, also while earlier requests are outstanding. *)
Theorem legacy_sends_every_text (texts : list jsstring) : forall st : state,
  Forall (fun text => blank text = false) texts ->
  outstanding (Legacy.sendAll texts st) = outstanding st ++ map trim texts.
Proof.
  induction texts as [|text texts IH]; intros st H; cbn [Legacy.sendAll map].
  - now rewrite app_nil_r.
  - inversion H as [|? ? Hb Hrest]; subst. rewrite (IH _ Hrest).
    unfold Legacy.sendMessage. cbn [queryInput set_queryInput].
    destruct (trim text) as [|c q] eqn:E.
    + apply trim_nil in E. congruence.
    + cbn [nonempty negb]. unfold addUserMessage, hideEmptyState.
      cbn [queryInput set_queryInput emptyState].
      destruct (emptyState st); cbn; now rewrite <- app_assoc.
Qed.

Lemma legacy_sends_every_text_witness :
  outstanding (Legacy.sendAll [lit "a"; lit "b"] initial) = [lit "a"; lit "b"].
Proof.
  apply (legacy_sends_every_text [lit "a"; lit "b"] initial).
  repeat constructor.
Defined.

(* ===================================================================== *)
(** ** A response that is well formed, and what every event keeps *)
(* ===================================================================== *)

Lemma hideEmptyState_placeholder st :
  placeholder_alone st ->
  emptyState (hideEmptyState st) = false
  /\ existsb is_emptyStateDiv (messagesDiv (hideEmptyState st)) = false.
Proof.
  unfold hideEmptyState. intros [[He Hm]|[He Hm]]; rewrite He; cbn.
  - rewrite Hm. auto.
  - auto.
Qed.

Lemma resetConversation_placeholder st : placeholder_alone (resetConversation st).
Proof.
  left. unfold resetConversation, renderHistory, addEmptyState.
  cbn [chatHistory set_emptyState set_messagesDiv].
  destruct (chatHistory st); cbn; auto.
Qed.

Section Responses.
Variable marked_parse : jsstring -> jsstring.
Variable citationLinks : jsstring -> list (option jsstring).

Local Abbreviation settle_ := (sendMessage_settle marked_parse citationLinks).
Local Abbreviation one_step := (step marked_parse citationLinks).
Local Abbreviation all_steps := (run marked_parse citationLinks).
Local Abbreviation trying := (tryBlock marked_parse citationLinks).

(** The [try] block on a string answer and an array of sources runs to
    its end. *)
Lemma tryBlock_well_formed q a l t st :
  exists annotated,
    applyInlineCitations (VStr a) (VArray l) = Ok (VStr annotated)
    /\ trying q (JsonBody (VStr a) (VArray l)) t st
       = (set_sourcesList
            (match l with
             | [] => [SourcesPlaceholder (lit "No sources yet.")]
             | _ => forEachCard 0 l
             end)
            (renderHistory
               (set_chatHistory
                  (fun h => h ++ [mkExchange q (VStr a) (VArray l) t])
                  (addBotMessage citationLinks (marked_parse annotated) (VArray l) st))),
          Ok tt).
Proof.
  assert (exists annotated, applyInlineCitations (VStr a) (VArray l) = Ok (VStr annotated))
    as [annotated Ha].
  { unfold applyInlineCitations.
    destruct (negb (truthy (VStr a)) || negb (truthy (VArray l)) || _); [eauto|].
    apply forEachSource_string. }
  exists annotated. split; [exact Ha|].
  assert (or_else (VStr a) (VStr []) = VStr a) as Hra by (now destruct a).
  unfold tryBlock, bind, await_json, of_result, ret, effect.
  cbn [fst snd]. rewrite Hra. cbn [or_else truthy]. rewrite Ha. cbn [marked].
  unfold renderSources. now destruct l.
Qed.

(** X12. When the response carries a string [answer] and an array
    [sources], the rest of [sendMessage] appends one assistant bubble
    with the rendering of the annotated answer, wired to this very array;
    appends to [chatHistory] the exchange of the query that was sent,
    with the answer as it came; renders the history, which then shows
    all exchanges; shows one card for each source, or the placeholder
    when there is none; and clears the flag and the loader. No error
    bubble is appended and the input is left as it is. *)
Theorem well_formed_response
        (q a : jsstring) (l : list Source) (t : jsstring) (st : state) :
  let st' := settle_ q (JsonBody (VStr a) (VArray l)) t st in
  exists annotated,
    applyInlineCitations (VStr a) (VArray l) = Ok (VStr annotated)
    /\ messagesDiv st'
       = messagesDiv (hideEmptyState st)
         ++ [BotMsg (marked_parse annotated)
               (map (match l with [] => unwired | _ => wire (VArray l) end)
                    (citationLinks (marked_parse annotated)))]
    /\ chatHistory st' = chatHistory st ++ [mkExchange q (VStr a) (VArray l) t]
    /\ historyList st' = forEachExchange 0 (chatHistory st')
    /\ sourcesList st' = match l with
                         | [] => [SourcesPlaceholder (lit "No sources yet.")]
                         | _ => forEachCard 0 l
                         end
    /\ isThinking st' = false
    /\ loading st' = false
    /\ queryInput st' = queryInput st
    /\ outstanding st' = outstanding st.
Proof.
  cbv zeta. destruct (tryBlock_well_formed q a l t st) as (annotated & Ha & Htry).
  exists annotated. split; [exact Ha|].
  unfold sendMessage_settle. rewrite Htry.
  set (st1 := addBotMessage citationLinks (marked_parse annotated) (VArray l) st).
  set (st2 := set_chatHistory _ st1).
  destruct (hideEmptyState_fields st) as (_ & _ & Hq & _ & _ & _ & Hc & _ & _ & Ho).
  assert (chatHistory st2 = chatHistory st ++ [mkExchange q (VStr a) (VArray l) t]) as Hc2.
  { subst st2 st1. cbn. now rewrite Hc. }
  unfold setThinking, updateSendState, renderHistory.
  rewrite Hc2. destruct (chatHistory st ++ _) as [|e h] eqn:E.
  { destruct (chatHistory st); discriminate E. }
  cbn. rewrite Hq, Ho, !Hc, !E. repeat split.
  unfold has_sources. destruct l; reflexivity.
Qed.

(** X19. There is no cancellation: when the conversation is reset while a
    request is outstanding and the request is then answered, its answer
    bubble becomes the only child of the message list, without the user
    bubble of its query, and its exchange is appended to the history
    that the reset has left in place. *)
Theorem answer_after_reset
        (st : state) (i : nat) (q a : jsstring) (l : list Source) (t : jsstring) :
  nth_error (outstanding st) i = Some q ->
  let st' := all_steps st [NewConversation; Settle i (JsonBody (VStr a) (VArray l)) t] in
  (exists html buttons, messagesDiv st' = [BotMsg html buttons])
  /\ chatHistory st' = chatHistory st ++ [mkExchange q (VStr a) (VArray l) t]
  /\ outstanding st' = remove_nth i (outstanding st).
Proof.
  intros Hi. cbv zeta. unfold run. cbn [fold_left step].
  destruct (resetConversation_fields st) as (Hc & _ & _ & Hm & _ & _ & _ & _ & Ho).
  rewrite Ho, Hi. set (st0 := set_outstanding (remove_nth i) (resetConversation st)).
  destruct (tryBlock_well_formed q a l t st0) as (annotated & _ & Htry).
  unfold sendMessage_settle. rewrite Htry.
  set (st1 := addBotMessage citationLinks (marked_parse annotated) (VArray l) st0).
  set (st2 := set_chatHistory _ st1).
  set (st3 := set_sourcesList _ (renderHistory st2)).
  destruct (setThinking_fields false st3) as (_ & _ & _ & -> & -> & _ & _ & _ & ->).
  destruct (renderHistory_fields st2) as (Hm2 & Hc2 & _ & _ & _ & Ho2).
  subst st3. cbn [messagesDiv chatHistory outstanding set_sourcesList].
  rewrite Hm2, Hc2, Ho2. subst st2 st1. unfold addBotMessage.
  cbn [messagesDiv chatHistory outstanding set_chatHistory set_messagesDiv].
  destruct (hideEmptyState_fields st0) as (_ & _ & _ & _ & _ & _ & -> & _ & _ & ->).
  assert (messagesDiv (hideEmptyState st0) = []) as ->.
  { destruct (resetConversation_placeholder st) as [[He Hms]|[He Hms]].
    - unfold hideEmptyState. subst st0. cbn [emptyState set_outstanding]. rewrite He.
      cbn [messagesDiv set_emptyState set_messagesDiv set_outstanding]. now rewrite Hms.
    - rewrite Hm in Hms. discriminate Hms. }
  subst st0. cbn [chatHistory outstanding set_outstanding]. rewrite Hc, Ho.
  split; [|auto]. eexists _, _. reflexivity.
Qed.

(** What the [try] block does to the message list. *)
Lemma tryBlock_messages q r t st :
  let st' := fst (trying q r t st) in
  (messagesDiv st' = messagesDiv st /\ emptyState st' = emptyState st
   /\ queryInput st' = queryInput st
   /\ snd (trying q r t st) = Throw)
  \/ (exists html v, messagesDiv st' = messagesDiv (addBotMessage citationLinks html v st)
                     /\ emptyState st' = false
                     /\ queryInput st' = queryInput st).
Proof.
  cbv zeta. unfold tryBlock, bind, await_json, of_result, effect, ret, throw.
  destruct r as [| | |a s]; try solve [left; repeat split].
  cbn [fst snd].
  destruct (applyInlineCitations _ _) as [v|]; [|solve [left; repeat split]].
  destruct (marked marked_parse v) as [html|]; [|solve [left; repeat split]].
  right. exists html, (or_else s (VArray [])).
  set (st1 := addBotMessage citationLinks html _ st).
  set (st2 := set_chatHistory _ st1).
  pose proof (renderSources_frame (or_else s (VArray [])) (renderHistory st2))
    as (_ & _ & _ & _ & Hm & Hq).
  assert (emptyState (fst (renderSources (or_else s (VArray [])) (renderHistory st2)))
          = emptyState (renderHistory st2)) as He.
  { unfold renderSources. destruct (negb _ || _); [reflexivity|].
    destruct (or_else s (VArray [])); reflexivity. }
  destruct (renderSources _ (renderHistory st2)) as [st3 res].
  cbn [fst] in Hm, Hq, He.
  assert (messagesDiv (renderHistory st2) = messagesDiv st1
          /\ emptyState (renderHistory st2) = false
          /\ queryInput (renderHistory st2) = queryInput st) as (Hm2 & He2 & Hq2).
  { unfold renderHistory. destruct (chatHistory st2); subst st2 st1; cbn;
      (repeat split; apply hideEmptyState_fields). }
  destruct res; cbn [fst]; rewrite Hm, Hq, He; auto.
Qed.

Lemma setThinking_ui on st :
  ui_consistent (setThinking on st)
  /\ (placeholder_alone st -> placeholder_alone (setThinking on st)).
Proof.
  split.
  - destruct (setThinking_fields on st) as (Ht & Hl & Hd & _ & _ & _ & _ & Hq & _).
    unfold ui_consistent. now rewrite Hd, Hl, Ht, Hq, trim_blank.
  - unfold placeholder_alone, setThinking, updateSendState.
    cbn [emptyState messagesDiv set_sendBtn_disabled set_loading set_isThinking]. auto.
Qed.

Lemma updateSendState_ui text st :
  loading st = isThinking st ->
  ui_consistent (updateSendState (set_queryInput text st)).
Proof.
  intros Hl. unfold ui_consistent, updateSendState.
  cbn [sendBtn_disabled loading isThinking queryInput set_sendBtn_disabled set_queryInput].
  now rewrite trim_blank.
Qed.

Lemma addBotMessage_placeholder html v st :
  placeholder_alone st -> placeholder_alone (addBotMessage citationLinks html v st).
Proof.
  intros Hp. right. destruct (hideEmptyState_placeholder st Hp) as [He Hn].
  unfold addBotMessage. cbn [emptyState messagesDiv set_messagesDiv].
  rewrite He, existsb_app, Hn. auto.
Qed.

Lemma settle_ui q r t st :
  ui_consistent (settle_ q r t st)
  /\ (placeholder_alone st -> placeholder_alone (settle_ q r t st)).
Proof.
  unfold sendMessage_settle. split; [apply setThinking_ui|].
  intros Hp. apply setThinking_ui.
  destruct (tryBlock_messages q r t st) as [(Hm & He & Hq & Hr)|(html & v & Hm & He & Hq)];
    cbv zeta in *; destruct (trying q r t st) as [st1 res]; cbn [fst snd] in *.
  - subst res. apply addBotMessage_placeholder.
    unfold placeholder_alone. now rewrite Hm, He.
  - assert (placeholder_alone st1) as Hp1.
    { right. split; [exact He|]. rewrite Hm.
      destruct (addBotMessage_placeholder html v st Hp) as [[E _]|[_ E]]; [|exact E].
      unfold addBotMessage in E. cbn [emptyState set_messagesDiv] in E.
      destruct (hideEmptyState_placeholder st Hp) as [E' _]. congruence. }
    destruct res; [exact Hp1|]. now apply addBotMessage_placeholder.
Qed.

Lemma sendMessage_ui st :
  (ui_consistent st -> ui_consistent (sendMessage st))
  /\ (placeholder_alone st -> placeholder_alone (sendMessage st)).
Proof.
  destruct (blank (queryInput st)) eqn:Hb.
  { apply trim_nil in Hb. rewrite (sendMessage_noop st) by auto. auto. }
  destruct (isThinking st) eqn:Ht.
  { rewrite (sendMessage_noop st) by auto. auto. }
  pose proof (nonblank_trim _ Hb) as Hq.
  destruct (sendMessage_sends st Hq Ht) as (_ & Hth & Hi & Hm & _).
  destruct (sendMessage_sets st Hq Ht) as (He & Hl & Hd & _).
  split.
  - intros _. unfold ui_consistent. now rewrite Hd, Hi, Hth, Hl.
  - intros Hp. right. rewrite He, Hm, existsb_app.
    destruct (hideEmptyState_placeholder st Hp) as [_ ->]. auto.
Qed.

Lemma step_ui st e :
  (ui_consistent st -> ui_consistent (one_step st e))
  /\ (placeholder_alone st -> placeholder_alone (one_step st e)).
Proof.
  destruct e as [text| |n| |i r t|m b]; cbn [step].
  - split; [|auto]. intros [_ Hl]. now apply updateSendState_ui.
  - apply sendMessage_ui.
  - destruct (existsb is_emptyStateDiv (messagesDiv st)); [|auto].
    destruct (nth_error example_questions n) as [text|]; [|auto].
    destruct (sendMessage_ui (updateSendState (set_queryInput text st))) as [Hu Hp].
    split.
    + intros [_ Hl]. apply Hu. now apply updateSendState_ui.
    + intros H. apply Hp. exact H.
  - split.
    + intros _. unfold ui_consistent.
      destruct (resetConversation_fields st) as (_ & _ & _ & _ & -> & -> & -> & -> & _).
      auto.
    + intros _. apply resetConversation_placeholder.
  - destruct (nth_error (outstanding st) i) as [q|]; [|auto].
    destruct (settle_ui q r t (set_outstanding (remove_nth i) st)) as [Hu Hp].
    split; [intros _; exact Hu|]. intros H. apply Hp. exact H.
  - unfold clickCitation.
    destruct (nth_error (messagesDiv st) m) as [[|?|html buttons]|]; auto.
    destruct (nth_error buttons b) as [[a [src|]]|]; auto.
Qed.

(** X17. Whatever the user and the network do, the send button is
    disabled exactly while the input is blank or the in-flight flag
    [isThinking] is set, and the loader is shown exactly while the flag
    is set. *)
Theorem send_button_follows_input (st : state) (es : list event) :
  ui_consistent st -> ui_consistent (all_steps st es).
Proof.
  revert st. induction es as [|e es IH]; intros st H; [exact H|].
  unfold run. cbn [fold_left]. apply IH. now apply step_ui.
Qed.

(** X18. Whatever the user and the network do, the placeholder with the
    example questions is never shown together with a message bubble: it
    is the only child of the message list, or it is not there. *)
Theorem placeholder_never_with_bubbles (st : state) (es : list event) :
  placeholder_alone st -> placeholder_alone (all_steps st es).
Proof.
  revert st. induction es as [|e es IH]; intros st H; [exact H|].
  unfold run. cbn [fold_left]. apply IH. now apply step_ui.
Qed.

(** X15. No event removes, changes or reorders an exchange: after any
    events, [chatHistory] is what it was with new exchanges at its end.
    A reset is no exception. *)
Theorem chatHistory_only_grows (st : state) (es : list event) :
  exists suffix, chatHistory (all_steps st es) = chatHistory st ++ suffix.
Proof.
  revert st. induction es as [|e es IH]; intros st.
  - exists []. now rewrite app_nil_r.
  - unfold run. cbn [fold_left].
    destruct (IH (one_step st e)) as [s2 H2].
    destruct (step_chatHistory_grows marked_parse citationLinks st e) as [s1 H1].
    exists (s1 ++ s2). unfold run in H2. rewrite H2, H1. now rewrite app_assoc.
Qed.

(** X16. Once the history panel shows the exchanges of [chatHistory], it
    shows them after any events: every change of [chatHistory] is
    followed by [renderHistory] before anything else can happen. *)
Theorem history_panel_in_sync (st : state) (es : list event) :
  history_in_sync st -> history_in_sync (all_steps st es).
Proof.
  revert st. induction es as [|e es IH]; intros st H; [exact H|].
  unfold run. cbn [fold_left]. apply IH.
  now apply step_history_in_sync.
Qed.

End Responses.

Lemma answer_after_reset_witness :
  let st := run plain_marked no_links initial [TypeText (lit "q"); Submit] in
  let st' := run plain_marked no_links st
                 [NewConversation; Settle 0 (JsonBody (VStr (lit "hi")) (VArray [])) (lit "10:00")] in
  (exists html buttons, messagesDiv st' = [BotMsg html buttons])
  /\ chatHistory st' = chatHistory st ++ [mkExchange (lit "q") (VStr (lit "hi")) (VArray [])
                                                     (lit "10:00")]
  /\ outstanding st' = remove_nth 0 (outstanding st).
Proof.
  cbv zeta.
  apply (answer_after_reset plain_marked no_links
           (run plain_marked no_links initial [TypeText (lit "q"); Submit])
           0 (lit "q") (lit "hi") [] (lit "10:00")).
  reflexivity.
Defined.

Lemma send_button_follows_input_witness :
  ui_consistent (run plain_marked no_links initial
                     [TypeText (lit " "); Submit; ClickExample 1; Submit;
                      Settle 0 NotJson (lit "10:00"); TypeText (lit "x")]).
Proof.
  apply (send_button_follows_input plain_marked no_links initial). split; reflexivity.
Defined.

Lemma placeholder_never_with_bubbles_witness :
  placeholder_alone (run plain_marked no_links initial
                         [ClickExample 0; NewConversation;
                          Settle 0 NetworkError (lit "10:00")]).
Proof.
  apply (placeholder_never_with_bubbles plain_marked no_links initial).
  left. split; reflexivity.
Defined.

Lemma history_panel_in_sync_witness :
  history_in_sync (run plain_marked no_links (renderHistory initial)
                       [TypeText (lit "q"); Submit;
                        Settle 0 (JsonBody (VStr (lit "hi")) (VArray [])) (lit "10:00");
                        NewConversation]).
Proof.
  apply (history_panel_in_sync plain_marked no_links (renderHistory initial)).
  reflexivity.
Defined.

(* ===================================================================== *)
(** ** The example questions *)
(* ===================================================================== *)

Lemma example_questions_plain text :
  In text example_questions -> trim text = text /\ br text = text /\ text <> [].
Proof.
  intros [<-|[<-|[<-|[]]]]; (split; [|split]);
    try (vm_compute; reflexivity); discriminate.
Qed.

Section Examples.
Variable marked_parse : jsstring -> jsstring.
Variable citationLinks : jsstring -> list (option jsstring).

Local Abbreviation stepping := (step marked_parse citationLinks).
Local Abbreviation running := (run marked_parse citationLinks).

Lemma shown_placeholder st :
  placeholder_alone st -> existsb is_emptyStateDiv (messagesDiv st) = true ->
  emptyState st = true /\ messagesDiv st = [EmptyStateDiv].
Proof. intros [H|[_ H]] Hs; [exact H|congruence]. Qed.

Lemma sendMessage_placeholder_idle st :
  placeholder_idle st -> placeholder_idle (sendMessage st).
Proof.
  intros [Hp Hf]. split; [now apply sendMessage_ui|].
  destruct (list_eq_dec N.eq_dec (trim (queryInput st)) []) as [E|E].
  { rewrite sendMessage_noop by auto. exact Hf. }
  destruct (isThinking st) eqn:Ht.
  { rewrite sendMessage_noop by auto. now rewrite Ht. }
  intros Hs. exfalso.
  destruct (sendMessage_sets st E Ht) as (He & _).
  destruct (shown_placeholder (sendMessage st)) as [He' _];
    [now apply sendMessage_ui|exact Hs|congruence].
Qed.

Lemma step_placeholder_idle st e :
  placeholder_idle st -> placeholder_idle (stepping st e).
Proof.
  intros Hpi. pose proof Hpi as [Hp Hf].
  destruct e as [text| |n| |i r t|m b]; cbn [step].
  - split; [exact Hp|exact Hf].
  - now apply sendMessage_placeholder_idle.
  - destruct (existsb is_emptyStateDiv (messagesDiv st)) eqn:Hs; [|exact Hpi].
    destruct (nth_error example_questions n) as [text|]; [|exact Hpi].
    apply sendMessage_placeholder_idle. split; [exact Hp|]. intros _. now apply Hf.
  - split; [apply resetConversation_placeholder|]. intros _.
    apply resetConversation_fields.
  - destruct (nth_error (outstanding st) i) as [q|]; [|exact Hpi].
    split.
    + apply (settle_ui marked_parse citationLinks). exact Hp.
    + intros _. apply (settle_outstanding marked_parse citationLinks).
  - unfold clickCitation.
    destruct (nth_error (messagesDiv st) m) as [[|?|html buttons]|]; try exact Hpi.
    destruct (nth_error buttons b) as [[a [src|]]|]; exact Hpi.
Qed.

Lemma run_placeholder_idle es : forall st,
  placeholder_idle st -> placeholder_idle (running st es).
Proof.
  induction es as [|e es IH]; intros st H; [exact H|].
  unfold run. cbn [fold_left]. apply IH. now apply step_placeholder_idle.
Qed.

(** X21. On every page reached from one where the placeholder is alone
    and the flag clear while it is shown (as after load): while the
    placeholder is shown, a click on an example question sends the
    question. The placeholder goes, the user bubble of the question
    becomes the only child of the message list, the input is empty
    again, the flag is set, and one request for the question is issued,
    in addition to a request that a reset has left outstanding. *)
Theorem example_click (st0 : state) (es : list event) (n : nat) (text : jsstring) :
  placeholder_idle st0 ->
  let st := running st0 es in
  existsb is_emptyStateDiv (messagesDiv st) = true ->
  nth_error example_questions n = Some text ->
  let st' := stepping st (ClickExample n) in
  outstanding st' = outstanding st ++ [text]
  /\ messagesDiv st' = [UserMsg text]
  /\ queryInput st' = []
  /\ isThinking st' = true.
Proof.
  intros H0. cbv zeta. intros Hshown Hn.
  destruct (run_placeholder_idle es st0 H0) as [Hp Hf].
  set (st := running st0 es) in *.
  cbn [step]. rewrite Hshown, Hn.
  destruct (example_questions_plain text (nth_error_In _ _ Hn)) as (Htrim & Hbr & Hne).
  destruct (shown_placeholder st Hp Hshown) as [He Hm].
  set (st1 := updateSendState (set_queryInput text st)).
  assert (queryInput st1 = text) as Hq1 by reflexivity.
  assert (isThinking st1 = false) as Ht1 by (apply Hf; exact Hshown).
  assert (trim (queryInput st1) <> []) as Hq by (rewrite Hq1, Htrim; exact Hne).
  destruct (sendMessage_sends st1 Hq Ht1) as (Ho & Hth & Hi & Hms & _).
  rewrite Ho, Hth, Hi, Hms, Hq1, Htrim, Hbr. repeat split.
  subst st1. unfold hideEmptyState, updateSendState.
  cbn [emptyState set_sendBtn_disabled set_queryInput]. rewrite He.
  cbn [messagesDiv set_emptyState set_messagesDiv set_sendBtn_disabled set_queryInput].
  now rewrite Hm.
Qed.

End Examples.

Lemma example_click_witness :
  let st := run plain_marked no_links initial
                [TypeText (lit "a"); Submit; NewConversation] in
  let st' := step plain_marked no_links st (ClickExample 1) in
  outstanding st'
  = [lit "a"; lit "What must a plaintiff prove to succeed in delict?"]
  /\ messagesDiv st' = [UserMsg (lit "What must a plaintiff prove to succeed in delict?")]
  /\ queryInput st' = []
  /\ isThinking st' = true.
Proof.
  cbv zeta.
  apply (example_click plain_marked no_links initial
           [TypeText (lit "a"); Submit; NewConversation] 1
           (lit "What must a plaintiff prove to succeed in delict?")).
  - split; [left; split; reflexivity|reflexivity].
  - reflexivity.
  - reflexivity.
Defined.
